(** * convert2nwbIcephysPy: run segmentation, series construction and
      grouping of patch-clamp sweeps

    A shallow embedding of [localFunctions.py] (getRuns, setVClampSeries,
    setCClampSeries) and of the data-driven part of the script
    [convert2nwbpClamp.py] (run bounds, the sweep loop, the sequential
    recording loop and the repetition loop), followed by the properties
    established about them.

    Conventions.
    - Python integers and numpy int64 values are [Z]; numpy and Python
      floats are binary64 primitive floats ([PrimFloat.float]).
    - 1-D numpy arrays and Python lists are [list]s; the 2-D sample array
      [values] is the list of its columns ([values[:,sweep]] is the
      sweep-th element).
    - A Python exception aborts the script: computations live in the
      [result] monad, whose [Raise] carries the exception class.
    - A call into the data-model library is recorded with the arguments
      the script passes; what the library does with them is not part of
      the development. The checks the library makes itself (it refuses a
      negative sweep_number and a repeated recording id) are not
      modelled: where a computation is shown to return, it is the
      script's own statements that are shown not to raise. *)

From Stdlib Require Import ZArith List String Ascii Bool Lia PrimFloat.
From Stdlib Require Import DecimalString DecimalZ Sorted.
Import ListNotations.

#[local] Open Scope string_scope.
#[local] Open Scope list_scope.
#[local] Open Scope Z_scope.

(** ** Exceptions and the result monad *)

Module Py.

Inductive exn : Type :=
  | IndexError
  | NameError
  | UnboundLocalError.

Inductive result (A : Type) : Type :=
  | Ok (a : A)
  | Raise (e : exn).

Arguments Ok {A} a.
Arguments Raise {A} e.

Definition bind {A B : Type} (m : result A) (k : A -> result B) : result B :=
  match m with
  | Ok a => k a
  | Raise e => Raise e
  end.

(** [UnboundLocalError] is a subclass of [NameError]. *)
Definition is_NameError (e : exn) : bool :=
  match e with
  | NameError | UnboundLocalError => true
  | IndexError => false
  end.

End Py.

Import Py.

Notation "x <- m ;; k" := (bind m (fun x => k))
  (at level 61, m at next level, right associativity).

(** ** Sequences, indexing and loops *)

(** [l[i]] for a Python list or numpy array: negative indices count from
    the end, anything out of range raises [IndexError]. *)
Definition getitem {A : Type} (l : list A) (i : Z) : result A :=
  let n := Z.of_nat (List.length l) in
  let j := if i <? 0 then i + n else i in
  if (0 <=? j) && (j <? n)
  then match nth_error l (Z.to_nat j) with
       | Some x => Ok x
       | None => Raise IndexError
       end
  else Raise IndexError.

(** [s[0]] for a string. *)
Definition first_char (s : string) : result ascii :=
  match s with
  | EmptyString => Raise IndexError
  | String c _ => Ok c
  end.

(** [range(a, b)] and [np.arange(a, b, 1)]. *)
Definition range (a b : Z) : list Z :=
  map (fun k => a + Z.of_nat k) (seq 0 (Z.to_nat (b - a))).

(** A [for] loop threading the loop-carried variables [s]. *)
Fixpoint for_each {S X : Type} (body : S -> X -> result S)
         (xs : list X) (s : S) : result S :=
  match xs with
  | [] => Ok s
  | x :: xs' => s' <- body s x ;; for_each body xs' s'
  end.

(** A list comprehension whose element expression may raise. *)
Fixpoint comprehension {X Y : Type} (f : X -> result Y) (xs : list X)
  : result (list Y) :=
  match xs with
  | [] => Ok []
  | x :: xs' => y <- f x ;; ys <- comprehension f xs' ;; Ok (y :: ys)
  end.

Definition size {A : Type} (l : list A) : Z := Z.of_nat (List.length l).

(** ** localFunctions.getRuns *)

(** The five accumulators of getRuns. *)
Record runs_acc : Type := mk_runs_acc {
  acc_runs : list string;
  acc_inds : list Z;
  acc_startTimes : list float;
  acc_dataPoints : list Z;
  acc_units : list string
}.

Definition ascii_eqb (a b : ascii) : bool := Ascii.eqb a b.

(** The [if / elif / elif] chain of the loop body: nothing is appended for
    a character other than 'b', '0' and '1'. *)
Definition classify (c : ascii) (runs units : list string)
  : list string * list string :=
  if ascii_eqb c "b"%char then (runs ++ ["break"], units ++ ["amperes"])
  else if ascii_eqb c "0"%char then (runs ++ ["plasticity"], units ++ ["volts"])
  else if ascii_eqb c "1"%char then (runs ++ ["baseline"], units ++ ["amperes"])
  else (runs, units).

Definition getRuns_body (sweepLabels : list string) (sweepDataPoints : list Z)
           (sweepStartTimes : list float) (a : runs_acc) (sweep : Z)
  : result runs_acc :=
  cur <- getitem sweepLabels sweep ;;
  c <- first_char cur ;;
  prev <- getitem sweepLabels (sweep - 1) ;;
  p <- first_char prev ;;
  if negb (ascii_eqb c p) then
    let '(runs, units) := classify c (acc_runs a) (acc_units a) in
    d <- getitem sweepDataPoints sweep ;;
    t <- getitem sweepStartTimes sweep ;;
    Ok (mk_runs_acc runs (acc_inds a ++ [sweep]) (acc_startTimes a ++ [t])
                    (acc_dataPoints a ++ [d]) units)
  else Ok a.

Definition getRuns (sweepLabels : list string) (sweepDataPoints : list Z)
           (sweepStartTimes : list float) : result runs_acc :=
  d0 <- getitem sweepDataPoints 0 ;;
  t0 <- getitem sweepStartTimes 0 ;;
  for_each (getRuns_body sweepLabels sweepDataPoints sweepStartTimes)
           (range 1 (size sweepLabels - 1))
           (mk_runs_acc ["baseline"] [0] [t0] [d0] ["amperes"]).

(** ** convert2nwbpClamp: run bounds *)

(** [endRunInds = np.concatenate((runInds[1:], [nSweeps])) - 1] and the
    two-column array of (first, last) sweep index per run. *)
Definition endRunInds (runInds : list Z) (nSweeps : Z) : list Z :=
  map (fun i => i - 1) (tl runInds ++ [nSweeps]).

Definition runBounds (runInds : list Z) (nSweeps : Z) : list (Z * Z) :=
  combine runInds (endRunInds runInds nSweeps).

(** ** Objects of the data-model library built by the script *)

Module NWB.

(** [nwb.create_icephys_electrode(...)]: only carried around. *)
Record IntracellularElectrode : Type := mk_electrode {
  electrode_name : string;
  electrode_description : string;
  electrode_location : string;
  electrode_slice : string;
  electrode_device : string
}.

Inductive series_class : Type :=
  | VoltageClampStimulusSeries
  | VoltageClampSeries
  | CurrentClampStimulusSeries
  | CurrentClampSeries.

(** The keyword arguments the four constructors are called with. *)
Record series : Type := mk_series {
  cls : series_class;
  name : string;
  description : string;
  data : list float;
  gain : float;
  unit : string;
  electrode : IntracellularElectrode;
  stimulus_description : string;
  starting_time : float;
  rate : float;
  sweep_number : Z
}.

End NWB.

(** ** localFunctions.setVClampSeries and setCClampSeries *)

(** The two [inputStruct] dictionaries. *)
Module VClamp.
Record inputStruct : Type := mk {
  samplingRate : float;
  startTime : float;
  data : list float;
  electrode : NWB.IntracellularElectrode;
  condition : string;
  stimState : Z;
  unit : string;
  sweepOrder : list Z
}.
End VClamp.

Module CClamp.
Record inputStruct : Type := mk {
  samplingRate : float;
  startTime : float;
  data : list float;
  electrode : NWB.IntracellularElectrode;
  unit : string;
  sweepOrder : list Z
}.
End CClamp.

(** [str(n)] for an integer. *)
Definition str (n : Z) : string := NilZero.string_of_int (Z.to_int n).

Definition prefix (n : Z) : string :=
  if n <? 10 then "00" else if n <? 100 then "0" else "".

Definition series_name (n : Z) : string :=
  ("PatchClampSeries" ++ prefix n ++ str n)%string.

(** The assignments to [description] and [stimDescription] in
    setVClampSeries; [None] when no branch assigns them. *)
Definition describe (condition : string) (stimState : Z)
  : option (string * string) :=
  if String.eqb condition "baseline" then
    if stimState =? 0 then
      Some ("Baseline condition: Light stimulation",
            "Baseline stimulation: Double light pulses.")
    else if stimState =? 1 then
      Some ("Baseline condition: Current stimulation",
            "Baseline stimulation: Double current pulses.")
    else None
  else if String.eqb condition "break" then
    Some ("Break sweeps are used while switching between two conditions: Nothing happens.",
          "No stimulation.")
  else None.

(** Reading a local variable that may not have been assigned. *)
Definition local {A : Type} (v : option A) : result A :=
  match v with
  | Some a => Ok a
  | None => Raise UnboundLocalError
  end.

Definition setVClampSeries (input : VClamp.inputStruct)
  : result (NWB.series * NWB.series) :=
  n <- getitem (VClamp.sweepOrder input) 0 ;;
  let texts := describe (VClamp.condition input) (VClamp.stimState input) in
  texts' <- local texts ;;
  let '(description, stimDescription) := texts' in
  id <- getitem (VClamp.sweepOrder input) 1 ;;
  let voltageClampStimulusSeries :=
    NWB.mk_series NWB.VoltageClampStimulusSeries (series_name n) description
      (VClamp.data input) 1%float "volts" (VClamp.electrode input)
      stimDescription (VClamp.startTime input) (VClamp.samplingRate input) id in
  let voltageClampSeries :=
    NWB.mk_series NWB.VoltageClampSeries (series_name n) description
      (VClamp.data input) 1%float (VClamp.unit input) (VClamp.electrode input)
      stimDescription (VClamp.startTime input) (VClamp.samplingRate input) id in
  Ok (voltageClampStimulusSeries, voltageClampSeries).

Definition setCClampSeries (input : CClamp.inputStruct)
  : result (NWB.series * NWB.series) :=
  n <- getitem (CClamp.sweepOrder input) 0 ;;
  id <- getitem (CClamp.sweepOrder input) 1 ;;
  let currentClampStimulusSeries :=
    NWB.mk_series NWB.CurrentClampStimulusSeries (series_name n)
      "Plasticity condition" (CClamp.data input) 1%float "amperes"
      (CClamp.electrode input)
      "Plasticity protocol: Simultaneous current and light stimulation"
      (CClamp.startTime input) (CClamp.samplingRate input) id in
  let currentClampSeries :=
    NWB.mk_series NWB.CurrentClampSeries (series_name n)
      "Plasticity condition" (CClamp.data input) 1%float (CClamp.unit input)
      (CClamp.electrode input)
      "Plasticity protocol: Simultaneous current and light stimulation"
      (CClamp.startTime input) (CClamp.samplingRate input) id in
  Ok (currentClampStimulusSeries, currentClampSeries).

(** ** convert2nwbpClamp: the loaded recording and the sweep loop *)

(** What the script reads from the loaded file. *)
Record recording : Type := mk_recording {
  interval : float;
  values : list (list float);
  sweepIDs : list Z;
  sweepDataPoints : list Z;
  sweepStartTimes : list float;
  sweepStates : list Z;
  sweepLabels : list string
}.

Definition vcScaleFactor : float := (1 / 10e12)%float.
Definition ccScaleFactor : float := (2.5 / 10e5)%float.

Definition electrode : NWB.IntracellularElectrode :=
  NWB.mk_electrode "icephys_electrode" "A patch clamp electrode"
    "Cell soma in CA1 of hippocampus" ("slice #" ++ str 1)%string
    "Amplifier_Multiclamp_700A".

(** [np.where(mask)[0]]: the positions at which [mask] holds. *)
Definition np_where (mask : list bool) : list Z :=
  map fst (filter snd (combine (range 0 (size mask)) mask)).

(** [np.logical_and(runInds[:,0] <= sweep, sweep <= runInds[:,1])]. *)
Definition in_run (sweep : Z) (row : Z * Z) : bool :=
  (fst row <=? sweep) && (sweep <=? snd row).

(** [array * factor]. *)
Definition scale (a : list float) (factor : float) : list float :=
  map (fun x => (x * factor)%float) a.

(** The body of the loop over [range(nSweeps)] that builds one
    (stimulus, response) pair. *)
Definition sweep_series (d : recording) (runs runUnits : list string)
           (runInds : list (Z * Z)) (sweep : Z)
  : result (NWB.series * NWB.series) :=
  run <- getitem (np_where (map (in_run sweep) runInds)) 0 ;;
  start <- getitem (sweepStartTimes d) sweep ;;
  column <- getitem (values d) sweep ;;
  cond <- getitem runs run ;;
  state <- getitem (sweepStates d) sweep ;;
  u <- getitem runUnits run ;;
  id <- getitem (sweepIDs d) sweep ;;
  let samplingRate := (1 / interval d)%float in
  if String.eqb cond "plasticity" then
    setCClampSeries
      (CClamp.mk samplingRate start (scale column ccScaleFactor) electrode
                 u [sweep + 1; id])
  else
    setVClampSeries
      (VClamp.mk samplingRate start (scale column vcScaleFactor) electrode
                 cond state u [sweep + 1; id]).

(** ** convert2nwbpClamp: sequential recordings *)

(** [np.unique]: the distinct values in increasing order. *)
Fixpoint insert_unique (x : Z) (l : list Z) : list Z :=
  match l with
  | [] => [x]
  | y :: l' =>
      if x <? y then x :: l
      else if x =? y then l
      else y :: insert_unique x l'
  end.

Definition np_unique (l : list Z) : list Z := fold_right insert_unique [] l.

(** One call of [nwb.add_icephys_sequential_recording]: its three keyword
    arguments, and the values [iRun] and [uniqueSweepStates[iState]] had
    when it was made. *)
Record seq_row : Type := mk_seq_row {
  row_run : Z;
  row_state : Z;
  simultaneous_recordings : list Z;
  stimulus_type : string;
  row_id : Z
}.

(** The variables the two nested loops carry: the counter, the script-level
    variable [stimulusType] (unbound before its first assignment) and the
    rows added so far. *)
Record seq_vars : Type := mk_seq_vars {
  seqGroupCount : Z;
  stimulusType : option string;
  seq_table : list seq_row
}.

(** The [if / elif] chain on the state code: no branch, no assignment. *)
Definition select_stimulusType (state : Z) (stimulusType : option string)
  : option string :=
  if state =? 0 then Some "light"
  else if state =? 1 then Some "current"
  else if state =? 2 then Some "combined"
  else if state =? 9 then Some "noStim"
  else stimulusType.

(** Reading a script-level variable that may not have been assigned. *)
Definition global {A : Type} (v : option A) : result A :=
  match v with
  | Some a => Ok a
  | None => Raise NameError
  end.

(** Body of the loop over the unique states of one run. *)
Definition state_body (condStates rowIndicesSimRec : list Z) (iRun : Z)
           (v : seq_vars) (state : Z) : result seq_vars :=
  let stimulusType' := select_stimulusType state (stimulusType v) in
  let inds := np_where (map (fun c => c =? state) condStates) in
  recs <- comprehension (getitem rowIndicesSimRec) inds ;;
  tag <- global stimulusType' ;;
  Ok (mk_seq_vars (seqGroupCount v + 1) (Some tag)
        (seq_table v ++ [mk_seq_row iRun state recs tag (seqGroupCount v)])).

(** Body of the loop over [range(nRuns)]. *)
Definition run_body (sweepStates : list Z) (runInds : list (Z * Z))
           (rowIndicesSimRec : list Z) (v : seq_vars) (iRun : Z)
  : result seq_vars :=
  row <- getitem runInds iRun ;;
  let inds := range (fst row) (snd row) in
  condStates <- comprehension (getitem sweepStates) inds ;;
  let uniqueSweepStates := np_unique condStates in
  for_each (state_body condStates rowIndicesSimRec iRun) uniqueSweepStates v.

Definition sequential_recordings (sweepStates : list Z)
           (runInds : list (Z * Z)) (rowIndicesSimRec : list Z) (nRuns : Z)
  : result seq_vars :=
  for_each (run_body sweepStates runInds rowIndicesSimRec) (range 0 nRuns)
           (mk_seq_vars 0 None []).

(** ** convert2nwbpClamp: repetitions *)

(** An element of the literal [[1,2], 3, 4, 5, [6,7]]. *)
Inductive py_item : Type :=
  | Int (z : Z)
  | IntList (l : list Z).

Definition runInds_literal : list py_item :=
  [IntList [1; 2]; Int 3; Int 4; Int 5; IntList [6; 7]].

(** [np.array(x, ndmin=1)]. *)
Definition np_array_ndmin1 (x : py_item) : list Z :=
  match x with
  | Int z => [z]
  | IntList l => l
  end.

(** One call of [nwb.add_icephys_repetition]. *)
Record repetition : Type := mk_repetition {
  sequential_recordings_of : list Z;
  repetition_id : Z
}.

Definition repetitions (nRuns : Z) : result (list repetition) :=
  comprehension
    (fun iRun => x <- getitem runInds_literal iRun ;;
                 Ok (mk_repetition (np_array_ndmin1 x) iRun))
    (range 0 nRuns).

(** ** convert2nwbpClamp: the script from the run table to the repetitions *)

Record conversion : Type := mk_conversion {
  runs : list string;
  runUnits : list string;
  runInds : list (Z * Z);
  series_pairs : list (NWB.series * NWB.series);
  sequential_table : list seq_row;
  repetition_table : list repetition
}.

(** The calls that add a recording and a simultaneous recording return the
    index of the row they add to a table that starts empty, so
    [rowIndices] and [rowIndicesSimRec] are [0 .. nSweeps-1]. The first of
    them also reads [sweepDataPoints[sweep]]. *)
Definition convert (d : recording) : result conversion :=
  r <- getRuns (sweepLabels d) (sweepDataPoints d) (sweepStartTimes d) ;;
  let nSweeps := size (sweepIDs d) in
  let nRuns := size (acc_runs r) in
  let runInds := runBounds (acc_inds r) nSweeps in
  pairs <- comprehension (sweep_series d (acc_runs r) (acc_units r) runInds)
                         (range 0 nSweeps) ;;
  _ <- comprehension (getitem (sweepDataPoints d)) (range 0 nSweeps) ;;
  let rowIndicesSimRec := range 0 nSweeps in
  v <- sequential_recordings (sweepStates d) runInds rowIndicesSimRec nRuns ;;
  reps <- repetitions nRuns ;;
  Ok (mk_conversion (acc_runs r) (acc_units r) runInds pairs (seq_table v) reps).

(** ** Vocabulary of the statements *)

(** The sweeps of a run with bounds (first, last), both inclusive. *)
Definition sweeps_of (row : Z * Z) : list Z := range (fst row) (snd row + 1).

(** Leading character of the label of sweep [k], when there is one. *)
Definition leading (labels : list string) (k : Z) : option ascii :=
  match getitem labels k with
  | Ok (String c _) => Some c
  | _ => None
  end.

Definition recognised (c : ascii) : bool :=
  ascii_eqb c "b"%char || ascii_eqb c "0"%char || ascii_eqb c "1"%char.

Definition nonempty (s : string) : bool :=
  match s with
  | EmptyString => false
  | String _ _ => true
  end.

(** A label whose leading character is 'b', '0' or '1'. *)
Definition label_ok (s : string) : bool :=
  match s with
  | EmptyString => false
  | String c _ => recognised c
  end.

(** Sweep [k] differs from its predecessor in the leading character of its
    label, and that character is none of 'b', '0', '1'. *)
Definition unmapped_boundary (labels : list string) (k : Z) : bool :=
  match leading labels k, leading labels (k - 1) with
  | Some c, Some p => negb (ascii_eqb c p) && negb (recognised c)
  | _, _ => false
  end.

(** Number of such sweeps among those the loop of getRuns visits. *)
Definition unmapped_boundaries (labels : list string) (hi : Z) : nat :=
  List.length (filter (unmapped_boundary labels) (range 1 hi)).

(** No two neighbours of the list are equal. *)
Fixpoint alternating (l : list string) : Prop :=
  match l with
  | x :: (y :: _) as l' => x <> y /\ alternating l'
  | _ => True
  end.

(** [lo < x1 < x2 < ... < xn < hi]. *)
Fixpoint ascending (lo : Z) (l : list Z) (hi : Z) : Prop :=
  match l with
  | [] => lo < hi
  | x :: l' => lo < x /\ ascending x l' hi
  end.

(** The kind the chain of getRuns appends for 'b', '0' and '1'. *)
Definition kind_of (c : ascii) : string :=
  if ascii_eqb c "b"%char then "break"
  else if ascii_eqb c "0"%char then "plasticity"
  else "baseline".

(** What the accumulators of getRuns satisfy whatever the labels are. *)
Definition lengths_inv (labels : list string) (k : Z) (a : runs_acc) : Prop :=
  List.length (acc_runs a) = List.length (acc_units a) /\
  List.length (acc_startTimes a) = List.length (acc_inds a) /\
  List.length (acc_dataPoints a) = List.length (acc_inds a) /\
  List.length (acc_inds a)
  = (List.length (acc_runs a) + unmapped_boundaries labels k)%nat.

(** What the accumulators satisfy when every label starts with one of
    'b', '0', '1'. *)
Definition kinds_inv (labels : list string) (k : Z) (a : runs_acc) : Prop :=
  (exists rest, acc_inds a = 0 :: rest /\ ascending 0 rest k) /\
  (leading labels 0 = Some "1"%char ->
   alternating (acc_runs a) /\
   exists p, leading labels (k - 1) = Some p /\
             last (acc_runs a) "" = kind_of p).

(** The condition under which setVClampSeries assigns its two texts. *)
Definition texts_assigned (condition : string) (stimState : Z) : bool :=
  (String.eqb condition "baseline" && ((stimState =? 0) || (stimState =? 1)))
  || String.eqb condition "break".

(** The tag table: state code to stimulus type. *)
Definition stimulus_map (state : Z) : option string :=
  if state =? 0 then Some "light"
  else if state =? 1 then Some "current"
  else if state =? 2 then Some "combined"
  else if state =? 9 then Some "noStim"
  else None.

(** Each row carries the tag the chain selects from its state code and the
    tag of the row before it, [prev] standing before the first row. *)
Fixpoint tags_chain (prev : option string) (rows : list seq_row) : Prop :=
  match rows with
  | [] => True
  | r :: rows' =>
      select_stimulusType (row_state r) prev = Some (stimulus_type r) /\
      tags_chain (Some (stimulus_type r)) rows'
  end.

Definition last_tag (prev : option string) (rows : list seq_row)
  : option string :=
  match rev rows with
  | [] => prev
  | r :: _ => Some (stimulus_type r)
  end.

Definition tags_inv (v : seq_vars) : Prop :=
  tags_chain None (seq_table v) /\
  stimulusType v = last_tag None (seq_table v).

(** The sweeps referenced by the rows added while [iRun] was the run. *)
Definition referenced_by_run (iRun : Z) (table : list seq_row) : list Z :=
  flat_map simultaneous_recordings
           (filter (fun r => row_run r =? iRun) table).

(** The identifiers of the rows added while [iRun] was the run. *)
Definition rows_of_run (iRun : Z) (table : list seq_row) : list Z :=
  map row_id (filter (fun r => row_run r =? iRun) table).

(** The rows reference positions counted from the start of their run and
    below the length of [np.arange(first, last)]. *)
Definition positions_in_run (runInds : list (Z * Z)) (r : seq_row) : Prop :=
  exists row,
    getitem runInds (row_run r) = Ok row /\
    forall x, In x (simultaneous_recordings r) ->
              0 <= x < Z.max 0 (snd row - fst row).

(** The rows the literal of the script gives for five runs. *)
Definition literal_repetitions : list repetition :=
  [mk_repetition [1; 2] 0; mk_repetition [3] 1; mk_repetition [4] 2;
   mk_repetition [5] 3; mk_repetition [6; 7] 4].

(** ** Sessions used as examples *)

(** A session of six sweeps whose labels are those of the scenario and
    whose sweep ids start at 5. *)
Definition six_sweeps : recording :=
  mk_recording 0.5%float
    [[1]; [1]; [1]; [1]; [1]; [1]]%float
    [5; 6; 7; 8; 9; 10]
    [1; 1; 1; 1; 1; 1]
    [0; 5; 10; 15; 20; 25]%float
    [0; 1; 9; 2; 2; 0]
    ["1"; "1"; "b"; "0"; "0"; "1"].

(** The runs, units and run bounds the script computes for it. *)
Definition six_sweeps_runs : list string := ["baseline"; "break"; "plasticity"].
Definition six_sweeps_units : list string := ["amperes"; "amperes"; "volts"].
Definition six_sweeps_bounds : list (Z * Z) := [(0, 1); (2, 2); (3, 5)].

(** Sweep 0 (baseline run) and sweep 3 (plasticity run) of [six_sweeps]. *)
Definition stimulus0 : NWB.series :=
  NWB.mk_series NWB.VoltageClampStimulusSeries "PatchClampSeries001"
    "Baseline condition: Light stimulation" (scale [1%float] vcScaleFactor)
    1%float "volts" electrode "Baseline stimulation: Double light pulses."
    0%float 2%float 5.

Definition response0 : NWB.series :=
  NWB.mk_series NWB.VoltageClampSeries "PatchClampSeries001"
    "Baseline condition: Light stimulation" (scale [1%float] vcScaleFactor)
    1%float "amperes" electrode "Baseline stimulation: Double light pulses."
    0%float 2%float 5.

Definition stimulus3 : NWB.series :=
  NWB.mk_series NWB.CurrentClampStimulusSeries "PatchClampSeries004"
    "Plasticity condition" (scale [1%float] ccScaleFactor) 1%float "amperes"
    electrode "Plasticity protocol: Simultaneous current and light stimulation"
    15%float 2%float 8.

Definition response3 : NWB.series :=
  NWB.mk_series NWB.CurrentClampSeries "PatchClampSeries004"
    "Plasticity condition" (scale [1%float] ccScaleFactor) 1%float "volts"
    electrode "Plasticity protocol: Simultaneous current and light stimulation"
    15%float 2%float 8.

(** Sweep 5 of [six_sweeps]: its label starts with '1', and it lies in
    the plasticity run, which ends at the last sweep. *)
Definition stimulus5 : NWB.series :=
  NWB.mk_series NWB.CurrentClampStimulusSeries "PatchClampSeries006"
    "Plasticity condition" (scale [1%float] ccScaleFactor) 1%float "amperes"
    electrode "Plasticity protocol: Simultaneous current and light stimulation"
    25%float 2%float 10.

Definition response5 : NWB.series :=
  NWB.mk_series NWB.CurrentClampSeries "PatchClampSeries006"
    "Plasticity condition" (scale [1%float] ccScaleFactor) 1%float "volts"
    electrode "Plasticity protocol: Simultaneous current and light stimulation"
    25%float 2%float 10.

(** A session of four sweeps, one baseline sweep and a break run whose
    middle sweep has the state code 10. *)
Definition break_with_code_10 : recording :=
  mk_recording 0.5%float
    [[1]; [1]; [1]; [1]]%float
    [1; 2; 3; 4]
    [1; 1; 1; 1]
    [0; 5; 10; 15]%float
    [0; 9; 10; 9]
    ["1"; "b"; "b"; "b"].

(** A session of five sweeps: two baseline sweeps with the state codes 0
    and 1, then a break run of three sweeps. *)
Definition five_sweeps : recording :=
  mk_recording 0.5%float
    [[1]; [1]; [1]; [1]; [1]]%float
    [1; 2; 3; 4; 5]
    [1; 1; 1; 1; 1]
    [0; 5; 10; 15; 20]%float
    [0; 1; 9; 9; 9]
    ["1"; "1"; "b"; "b"; "b"].

(** What the script builds from [five_sweeps]. *)
Definition five_sweeps_conversion : conversion :=
  Eval vm_compute in
    match convert five_sweeps with
    | Ok c => c
    | Raise _ => mk_conversion [] [] [] [] [] []
    end.

(** ** Vocabulary of the further properties *)

(** Sweep [k] differs from its predecessor in the leading character of its
    label. *)
Definition boundary (labels : list string) (k : Z) : bool :=
  match leading labels k, leading labels (k - 1) with
  | Some c, Some p => negb (ascii_eqb c p)
  | _, _ => false
  end.

(** The three (kind, unit) pairs getRuns can produce. *)
Definition kind_unit (kind unit : string) : Prop :=
  (kind = "baseline" /\ unit = "amperes") \/
  (kind = "break" /\ unit = "amperes") \/
  (kind = "plasticity" /\ unit = "volts").

(** The accumulators hold, for every start index, the entries of the
    input arrays at that index. *)
Definition reads_inv (dps : list Z) (sts : list float) (a : runs_acc) : Prop :=
  Forall2 (fun i t => getitem sts i = Ok t) (acc_inds a) (acc_startTimes a) /\
  Forall2 (fun i d => getitem dps i = Ok d) (acc_inds a) (acc_dataPoints a).

(** The positions at which [mask] holds, counted from [o]. *)
Fixpoint where_from (o : Z) (mask : list bool) : list Z :=
  match mask with
  | [] => []
  | b :: mask' =>
      if b then o :: where_from (o + 1) mask' else where_from (o + 1) mask'
  end.

(** [s] without its prefix [p], when it starts with [p]. *)
Fixpoint strip_prefix (p s : string) : option string :=
  match p with
  | EmptyString => Some s
  | String c p' =>
      match s with
      | EmptyString => None
      | String c' s' => if Ascii.eqb c c' then strip_prefix p' s' else None
      end
  end.

(** Reads a series name back: the number written after "PatchClampSeries",
    leading zeros allowed. *)
Definition position_of_name (s : string) : option Z :=
  match strip_prefix "PatchClampSeries" s with
  | Some digits => option_map Z.of_uint (NilEmpty.uint_of_string digits)
  | None => None
  end.

(** Order of the rows of the table of sequential recordings: by run, then
    by state code. *)
Definition row_lt (r1 r2 : seq_row) : Prop :=
  row_run r1 < row_run r2 \/
  (row_run r1 = row_run r2 /\ row_state r1 < row_state r2).

(** The counter of the sequential recording loop counts the rows, which
    are numbered from 0 in the order they were added. *)
Definition ids_inv (v : seq_vars) : Prop :=
  seqGroupCount v = size (seq_table v) /\
  map row_id (seq_table v) = range 0 (size (seq_table v)).

(** What a row references: the positions, counted from 0, of the sweeps
    among first .. last-1 of its run that have its state code. *)
Definition references_by_state (sweepStates : list Z)
           (runInds : list (Z * Z)) (r : seq_row) : Prop :=
  exists row,
    getitem runInds (row_run r) = Ok row /\
    forall x, In x (simultaneous_recordings r) <->
              0 <= x < snd row - fst row /\
              getitem sweepStates (fst row + x) = Ok (row_state r).

(** Every position of every run visited so far is referenced by a row of
    that run. *)
Definition covered (runInds : list (Z * Z)) (k : Z) (table : list seq_row)
  : Prop :=
  forall iRun row p,
    0 <= iRun < k -> getitem runInds iRun = Ok row ->
    0 <= p < snd row - fst row ->
    exists r, In r table /\ row_run r = iRun /\
              In p (simultaneous_recordings r).

(** ** convert2nwbpClamp: the session identifier *)




(** The bounds of a run lie inside an array of [n] entries. *)
Definition row_within (n : Z) (row : Z * Z) : Prop :=
  0 <= fst row /\ snd row <= n.

(** A state code the tag table knows. *)
Definition mapped (state : Z) : Prop := stimulus_map state <> None.

(** The kind getRuns appends for a run that starts at sweep [i]: the kind
    of the leading character of the sweep's label, none for a character
    other than 'b', '0', '1'. *)
Definition run_kind (labels : list string) (i : Z) : list string :=
  match leading labels i with
  | Some c => if recognised c then [kind_of c] else []
  | None => []
  end.

(** * Properties *)

(** ** Ranges, indexing, loops *)

Lemma range_nil (a b : Z) : b <= a -> range a b = [].
Proof.
  intros H. unfold range.
  replace (Z.to_nat (b - a)) with 0%nat by lia. reflexivity.
Qed.

Lemma range_cons (a b : Z) : a < b -> range a b = a :: range (a + 1) b.
Proof.
  intros H. unfold range.
  replace (Z.to_nat (b - a)) with (S (Z.to_nat (b - (a + 1)))) by lia.
  cbn [seq map]. f_equal; [lia|].
  rewrite <- seq_shift, map_map. apply map_ext. intros k. lia.
Qed.

Lemma range_snoc (a b : Z) : a <= b -> range a (b + 1) = range a b ++ [b].
Proof.
  intros H. unfold range.
  replace (Z.to_nat (b + 1 - a)) with (Z.to_nat (b - a) + 1)%nat by lia.
  rewrite seq_app, map_app. cbn [seq map]. do 2 f_equal. lia.
Qed.

Lemma seq_offset (m n : nat) :
  seq m n = map (fun k => (m + k)%nat) (seq 0 n).
Proof.
  induction m as [|m IH]; cbn.
  - symmetry. apply map_id.
  - rewrite <- seq_shift, IH, map_map. reflexivity.
Qed.

Lemma range_app (a b c : Z) :
  a <= b -> b <= c -> range a b ++ range b c = range a c.
Proof.
  intros Hab Hbc. unfold range.
  replace (Z.to_nat (c - a)) with (Z.to_nat (b - a) + Z.to_nat (c - b))%nat
    by lia.
  rewrite seq_app, map_app. f_equal. cbn [Nat.add].
  rewrite (seq_offset (Z.to_nat (b - a))), map_map.
  apply map_ext. intros k. lia.
Qed.

Lemma In_range (a b x : Z) : In x (range a b) <-> a <= x < b.
Proof.
  unfold range. rewrite in_map_iff. split.
  - intros (k & <- & Hk). apply in_seq in Hk. lia.
  - intros H. exists (Z.to_nat (x - a)). split; [lia|]. apply in_seq. lia.
Qed.

Lemma length_range (a b : Z) : List.length (range a b) = Z.to_nat (b - a).
Proof. unfold range. now rewrite length_map, length_seq. Qed.

(** Decides the two tests of [getitem] on a non-negative index. *)
Ltac getitem_nonneg i :=
  unfold size, getitem;
  destruct (Z.ltb_spec i 0) as [?|_]; [lia|];
  destruct (Z.leb_spec 0 i) as [_|?]; [|lia].

Lemma getitem_nth {A : Type} (l : list A) (i : Z) :
  0 <= i < size l ->
  exists x, getitem l i = Ok x /\ nth_error l (Z.to_nat i) = Some x.
Proof.
  intros H. unfold size in H. getitem_nonneg i.
  destruct (Z.ltb_spec i (Z.of_nat (List.length l))) as [_|?]; [|lia].
  cbn [andb].
  destruct (nth_error l (Z.to_nat i)) as [x|] eqn:E.
  - exists x. split; reflexivity.
  - apply nth_error_None in E. lia.
Qed.

Lemma getitem_Ok_nonneg {A : Type} (l : list A) (i : Z) (x : A) :
  0 <= i -> getitem l i = Ok x ->
  i < size l /\ nth_error l (Z.to_nat i) = Some x.
Proof.
  intros Hi. getitem_nonneg i.
  destruct (Z.ltb_spec i (Z.of_nat (List.length l))) as [Hlt|?];
    cbn [andb]; [|discriminate].
  destruct (nth_error l (Z.to_nat i)) as [y|]; [|discriminate].
  intros [= ->]. split; [assumption|reflexivity].
Qed.

(** A loop over [range a b] establishes [P b] from [P a] when every
    iteration runs to its end and takes [P k] to [P (k+1)]. *)
Lemma for_each_range_inv {S : Type} (P : Z -> S -> Prop)
      (body : S -> Z -> result S) (a b : Z) (s0 : S) :
  a <= b -> P a s0 ->
  (forall k s, a <= k < b -> P k s ->
               exists s', body s k = Ok s' /\ P (k + 1) s') ->
  exists s', for_each body (range a b) s0 = Ok s' /\ P b s'.
Proof.
  intros Hab. remember (Z.to_nat (b - a)) as n eqn:En.
  revert a s0 Hab En. induction n as [|n IH]; intros a s0 Hab En H0 Hstep.
  - assert (a = b) as -> by lia. rewrite range_nil by lia.
    exists s0. split; [reflexivity|assumption].
  - rewrite range_cons by lia. cbn [for_each].
    destruct (Hstep a s0) as (s1 & E1 & P1); [lia|assumption|].
    rewrite E1. cbn [bind].
    apply IH; [lia|lia|assumption|].
    intros k s Hk. apply Hstep. lia.
Qed.

(** ** getRuns *)

Lemma classify_recognised (c : ascii) (rs us : list string) :
  recognised c = true -> fst (classify c rs us) = rs ++ [kind_of c].
Proof.
  unfold recognised, classify, kind_of.
  destruct (ascii_eqb c "b"); [reflexivity|].
  destruct (ascii_eqb c "0"); [reflexivity|].
  destruct (ascii_eqb c "1"); [reflexivity|discriminate].
Qed.

Lemma classify_length (c : ascii) (rs us : list string) :
  List.length rs = List.length us ->
  let n := if recognised c then 1%nat else 0%nat in
  List.length (fst (classify c rs us)) = (List.length rs + n)%nat /\
  List.length (snd (classify c rs us)) = (List.length rs + n)%nat.
Proof.
  intros E. unfold recognised, classify.
  destruct (ascii_eqb c "b"); [cbn; rewrite !length_app, E; cbn; lia|].
  destruct (ascii_eqb c "0"); [cbn; rewrite !length_app, E; cbn; lia|].
  destruct (ascii_eqb c "1"); cbn; [rewrite !length_app, E; cbn; lia|lia].
Qed.

Lemma kind_of_inj (c p : ascii) :
  recognised c = true -> recognised p = true ->
  kind_of c = kind_of p -> c = p.
Proof.
  unfold recognised, kind_of, ascii_eqb.
  destruct (Ascii.eqb_spec c "b"), (Ascii.eqb_spec c "0"),
    (Ascii.eqb_spec c "1"), (Ascii.eqb_spec p "b"), (Ascii.eqb_spec p "0"),
    (Ascii.eqb_spec p "1"); cbn; intros; congruence.
Qed.

Lemma leading_nonempty (labels : list string) (k : Z) :
  forallb nonempty labels = true -> 0 <= k < size labels ->
  exists c rest, getitem labels k = Ok (String c rest) /\
                 leading labels k = Some c.
Proof.
  intros Hall Hk. destruct (getitem_nth labels k Hk) as (x & E & Hn).
  apply nth_error_In in Hn.
  rewrite forallb_forall in Hall. specialize (Hall x Hn).
  destruct x as [|c rest]; [discriminate|].
  exists c, rest. unfold leading. rewrite E. split; reflexivity.
Qed.

Lemma label_ok_nonempty (labels : list string) :
  forallb label_ok labels = true -> forallb nonempty labels = true.
Proof.
  rewrite !forallb_forall. intros H x Hx. specialize (H x Hx).
  destruct x; [discriminate|reflexivity].
Qed.

Lemma leading_recognised (labels : list string) (k : Z) (c : ascii) :
  forallb label_ok labels = true -> 0 <= k ->
  leading labels k = Some c -> recognised c = true.
Proof.
  intros Hall Hk. unfold leading.
  destruct (getitem labels k) as [x|] eqn:E; [|discriminate].
  destruct x as [|c' rest]; [discriminate|]. intros [= ->].
  apply getitem_Ok_nonneg in E as [_ Hn]; [|assumption].
  apply nth_error_In in Hn. rewrite forallb_forall in Hall.
  exact (Hall _ Hn).
Qed.

Lemma unmapped_boundaries_succ (labels : list string) (k : Z) :
  1 <= k ->
  unmapped_boundaries labels (k + 1)
  = (unmapped_boundaries labels k
     + if unmapped_boundary labels k then 1 else 0)%nat.
Proof.
  intros Hk. unfold unmapped_boundaries.
  rewrite range_snoc by assumption. rewrite filter_app, length_app.
  cbn [filter]. destruct (unmapped_boundary labels k); reflexivity.
Qed.

Lemma ascending_snoc (lo : Z) (l : list Z) (k : Z) :
  ascending lo l k -> ascending lo (l ++ [k]) (k + 1).
Proof.
  revert lo. induction l as [|x l IH]; intros lo; cbn.
  - lia.
  - intros [H1 H2]. split; [assumption|apply IH; assumption].
Qed.

Lemma ascending_weaken (lo : Z) (l : list Z) (k k' : Z) :
  ascending lo l k -> k <= k' -> ascending lo l k'.
Proof.
  revert lo. induction l as [|x l IH]; intros lo; cbn.
  - lia.
  - intros [H1 H2] Hk. split; [assumption|apply IH; assumption].
Qed.

Lemma alternating_snoc (l : list string) (x : string) :
  alternating l -> last l "" <> x -> alternating (l ++ [x]).
Proof.
  induction l as [|y l IH]; [intros; exact I|].
  destruct l as [|z l].
  - cbn. intros _ H. split; [assumption|exact I].
  - intros [Hyz Hl] Hlast. change ((y :: z :: l) ++ [x]) with (y :: (z :: l) ++ [x]).
    change (y <> z /\ alternating ((z :: l) ++ [x])).
    split; [assumption|]. apply IH; assumption.
Qed.

Lemma alternating_nth (l : list string) (k : nat) (a b : string) :
  alternating l ->
  nth_error l k = Some a -> nth_error l (S k) = Some b -> a <> b.
Proof.
  revert k. induction l as [|x l IH]; intros k Hl Ha Hb; [destruct k; discriminate|].
  destruct l as [|y l]; [destruct k; discriminate|].
  destruct Hl as [Hxy Hl]. destruct k as [|k].
  - cbn in Ha, Hb. congruence.
  - apply (IH k); assumption.
Qed.

(** The loop of getRuns on arrays of one length. *)
Section GetRunsLoop.

Variables (labels : list string) (dps : list Z) (sts : list float).
Hypothesis Hd : List.length dps = List.length labels.
Hypothesis Ht : List.length sts = List.length labels.

(** One iteration of the loop of getRuns, on arrays of one length whose
    labels are not empty. *)
Lemma getRuns_body_step (a : runs_acc) (k : Z) :
  forallb nonempty labels = true ->
  1 <= k < size labels ->
  exists c p d t,
    leading labels k = Some c /\ leading labels (k - 1) = Some p /\
    getRuns_body labels dps sts a k
    = Ok (if negb (ascii_eqb c p)
          then mk_runs_acc (fst (classify c (acc_runs a) (acc_units a)))
                           (acc_inds a ++ [k]) (acc_startTimes a ++ [t])
                           (acc_dataPoints a ++ [d])
                           (snd (classify c (acc_runs a) (acc_units a)))
          else a).
Proof.
  intros Hall Hk.
  destruct (leading_nonempty labels k Hall) as (c & rc & Ec & Lc); [lia|].
  destruct (leading_nonempty labels (k - 1) Hall) as (p & rp & Ep & Lp); [lia|].
  destruct (getitem_nth dps k) as (d & Ed & _); [unfold size in *; lia|].
  destruct (getitem_nth sts k) as (t & Et & _); [unfold size in *; lia|].
  exists c, p, d, t. split; [assumption|]. split; [assumption|].
  unfold getRuns_body. rewrite Ec. cbn [bind first_char].
  rewrite Ep. cbn [bind first_char].
  destruct (negb (ascii_eqb c p)); [|reflexivity].
  destruct (classify c (acc_runs a) (acc_units a)) as [rs us].
  rewrite Ed, Et. reflexivity.
Qed.

Lemma getRuns_body_lengths (a : runs_acc) (k : Z) :
  forallb nonempty labels = true ->
  1 <= k < size labels ->
  lengths_inv labels k a ->
  exists a', getRuns_body labels dps sts a k = Ok a' /\
             lengths_inv labels (k + 1) a'.
Proof.
  intros Hall Hk (Hru & Hs & Hp & Hi).
  destruct (getRuns_body_step a k Hall Hk)
    as (c & p & d & t & Lc & Lp & E).
  rewrite E. eexists. split; [reflexivity|].
  unfold lengths_inv. rewrite unmapped_boundaries_succ by lia.
  unfold unmapped_boundary. rewrite Lc, Lp.
  destruct (negb (ascii_eqb c p)); cbn [andb].
  - destruct (classify_length c _ _ Hru) as [L1 L2]. cbn zeta in L1, L2.
    cbn [acc_runs acc_units acc_inds acc_startTimes acc_dataPoints].
    rewrite L1, L2, !length_app. cbn [List.length].
    destruct (recognised c); cbn [negb]; repeat split; lia.
  - repeat split; try assumption. lia.
Qed.

Lemma getRuns_lengths :
  (1 <= List.length labels)%nat ->
  forallb nonempty labels = true ->
  exists r, getRuns labels dps sts = Ok r /\
            lengths_inv labels (size labels - 1) r.
Proof.
  intros Hn Hall. unfold getRuns.
  destruct (getitem_nth dps 0) as (d0 & -> & _); [unfold size; lia|].
  destruct (getitem_nth sts 0) as (t0 & -> & _); [unfold size; lia|].
  cbn [bind].
  assert (lengths_inv labels 1 (mk_runs_acc ["baseline"] [0] [t0] [d0] ["amperes"]))
    as H1 by (repeat split).
  destruct (Z.le_gt_cases 1 (size labels - 1)) as [Hle|Hgt].
  - apply (for_each_range_inv (lengths_inv labels)); [assumption|assumption|].
    intros k a Hk Ha.
    apply getRuns_body_lengths; try assumption. lia.
  - rewrite range_nil by lia. eexists. split; [reflexivity|].
    unfold lengths_inv, unmapped_boundaries. rewrite range_nil by lia.
    repeat split.
Qed.

Lemma getRuns_body_kinds (a : runs_acc) (k : Z) :
  forallb label_ok labels = true ->
  1 <= k < size labels ->
  kinds_inv labels k a ->
  exists a', getRuns_body labels dps sts a k = Ok a' /\
             kinds_inv labels (k + 1) a'.
Proof.
  intros Hall Hk ((rest & Ei & Hasc) & Hkinds).
  pose proof (label_ok_nonempty labels Hall) as Hne.
  destruct (getRuns_body_step a k Hne Hk)
    as (c & p & d & t & Lc & Lp & E).
  rewrite E. eexists. split; [reflexivity|].
  assert (recognised c = true) as Rc
    by (apply (leading_recognised labels k); [assumption|lia|assumption]).
  assert (recognised p = true) as Rp
    by (apply (leading_recognised labels (k - 1)); [assumption|lia|assumption]).
  unfold kinds_inv. replace (k + 1 - 1) with k by lia.
  destruct (negb (ascii_eqb c p)) eqn:Ecp.
  - split; cbn [acc_inds acc_runs].
    + exists (rest ++ [k]). rewrite Ei. split; [reflexivity|].
      apply ascending_snoc. assumption.
    + intros H0. destruct (Hkinds H0) as (Halt & p' & Lp' & Hlast).
      rewrite Lp in Lp'. injection Lp' as <-.
      rewrite classify_recognised by assumption. split.
      * apply alternating_snoc; [assumption|]. rewrite Hlast. intros Heq.
        apply kind_of_inj in Heq; try assumption. subst p.
        unfold ascii_eqb in Ecp. rewrite Ascii.eqb_refl in Ecp. discriminate.
      * exists c. split; [assumption|]. apply last_last.
  - split.
    + exists rest. split; [assumption|].
      apply (ascending_weaken 0 rest k); [assumption|lia].
    + intros H0. destruct (Hkinds H0) as (Halt & p' & Lp' & Hlast).
      rewrite Lp in Lp'. injection Lp' as <-.
      split; [assumption|]. exists c. split; [assumption|].
      apply negb_false_iff in Ecp. unfold ascii_eqb in Ecp.
      apply Ascii.eqb_eq in Ecp. subst c. assumption.
Qed.

Lemma getRuns_kinds :
  (2 <= List.length labels)%nat ->
  forallb label_ok labels = true ->
  exists r, getRuns labels dps sts = Ok r /\
            kinds_inv labels (size labels - 1) r.
Proof.
  intros Hn Hall. unfold getRuns.
  destruct (getitem_nth dps 0) as (d0 & -> & _); [unfold size; lia|].
  destruct (getitem_nth sts 0) as (t0 & -> & _); [unfold size; lia|].
  cbn [bind].
  apply (for_each_range_inv (kinds_inv labels)).
  - unfold size. lia.
  - split.
    + exists []. split; [reflexivity|]. cbn. lia.
    + intros H0. cbn [acc_runs]. split; [exact I|].
      exists "1"%char. split; [exact H0|reflexivity].
  - intros k a Hk Ha. apply getRuns_body_kinds; try assumption. lia.
Qed.

End GetRunsLoop.

(** ** Run bounds *)

Lemma runBounds_cons (lo x : Z) (rest : list Z) (n : Z) :
  runBounds (lo :: x :: rest) n = (lo, x - 1) :: runBounds (x :: rest) n.
Proof. reflexivity. Qed.

Lemma in_run_sweeps_of (sweep : Z) (row : Z * Z) :
  in_run sweep row = true <-> In sweep (sweeps_of row).
Proof.
  unfold in_run, sweeps_of. rewrite In_range, andb_true_iff, !Z.leb_le. lia.
Qed.

Lemma runBounds_partition (lo : Z) (rest : list Z) (hi n : Z) :
  ascending lo rest hi -> hi <= n ->
  flat_map sweeps_of (runBounds (lo :: rest) n) = range lo n /\
  Forall (fun row => fst row <= snd row) (runBounds (lo :: rest) n) /\
  List.length (runBounds (lo :: rest) n) = S (List.length rest).
Proof.
  revert lo. induction rest as [|x rest IH]; intros lo Hasc Hn.
  - cbn in Hasc. cbn. unfold sweeps_of. cbn [fst snd].
    replace (n - 1 + 1) with n by lia. rewrite app_nil_r.
    repeat split. constructor; [cbn; lia|constructor].
  - destruct Hasc as [Hlo Hasc]. rewrite runBounds_cons.
    destruct (IH x Hasc Hn) as (Hflat & Hall & Hlen).
    cbn [flat_map List.length]. rewrite Hflat, Hlen.
    unfold sweeps_of at 1. cbn [fst snd].
    replace (x - 1 + 1) with x by lia.
    assert (x < n) as Hxn.
    { clear - Hasc Hn. revert x Hasc.
      induction rest as [|y rest IHr]; intros x Hasc; cbn in Hasc; [lia|].
      destruct Hasc as [Hxy Hasc]. specialize (IHr y Hasc). lia. }
    rewrite range_app by lia.
    repeat split. constructor; [cbn; lia|assumption].
Qed.

Lemma no_unmapped_boundaries (labels : list string) (hi : Z) :
  forallb label_ok labels = true -> unmapped_boundaries labels hi = 0%nat.
Proof.
  intros Hall. unfold unmapped_boundaries.
  assert (forall k, In k (range 1 hi) -> unmapped_boundary labels k = false)
    as Hfalse.
  { intros k Hk. apply In_range in Hk. unfold unmapped_boundary.
    destruct (leading labels k) as [c|] eqn:Lc; [|reflexivity].
    destruct (leading labels (k - 1)); [|reflexivity].
    rewrite (leading_recognised labels k c); [|assumption|lia|assumption].
    apply andb_false_r. }
  induction (range 1 hi) as [|k l IH]; [reflexivity|].
  cbn [filter]. rewrite (Hfalse k) by (left; reflexivity).
  apply IH. intros k' Hk'. apply Hfalse. right. assumption.
Qed.

(** ** Claims on the run segmenter *)

(** C1. For the labels ["1","1","b","0","0","1"], uniform point counts and
    start times, the loop of getRuns visits sweeps 1 to 4 only: the change
    of label at the last sweep (index 5) opens no run. getRuns returns the
    three runs baseline, break, plasticity starting at 0, 2, 3, and the
    script gives them the bounds 0-1, 2-2, 3-5; the fourth run
    baseline(5-5) of the scenario is not produced. *)
Theorem C1_scenario_yields_three_runs :
  getRuns ["1"; "1"; "b"; "0"; "0"; "1"] [100; 100; 100; 100; 100; 100]
          [0; 0; 0; 0; 0; 0]%float
  = Ok (mk_runs_acc ["baseline"; "break"; "plasticity"] [0; 2; 3]
                    [0; 0; 0]%float [100; 100; 100]
                    ["amperes"; "amperes"; "volts"])
  /\ runBounds [0; 2; 3] 6 = [(0, 1); (2, 2); (3, 5)]
  /\ leading ["1"; "1"; "b"; "0"; "0"; "1"] 5 = Some "1"%char
  /\ leading ["1"; "1"; "b"; "0"; "0"; "1"] 4 = Some "0"%char
  /\ ~ In 5 (range 1 (size ["1"; "1"; "b"; "0"; "0"; "1"] - 1)).
Proof.
  repeat split; try reflexivity.
  rewrite In_range. cbn. lia.
Qed.

(** C2, as amended. For sweep arrays of one length N >= 2 whose labels all
    start with 'b', '0' or '1', getRuns returns, and the run bounds the
    script derives from it (each run ends one sweep before the next run
    starts, the last run ends at sweep N-1) list the sweeps 0 .. N-1 once
    each and in order, every run holding at least one sweep and every run
    having a kind. When moreover the label of sweep 0 starts with '1', no
    two consecutive runs have the same kind. *)
Theorem C2_runs_partition_sweeps (labels : list string) (dps : list Z)
        (sts : list float) (nSweeps : Z) :
  List.length dps = List.length labels ->
  List.length sts = List.length labels ->
  nSweeps = size labels ->
  (2 <= List.length labels)%nat ->
  forallb label_ok labels = true ->
  exists r,
    getRuns labels dps sts = Ok r /\
    List.length (runBounds (acc_inds r) nSweeps) = List.length (acc_runs r) /\
    flat_map sweeps_of (runBounds (acc_inds r) nSweeps) = range 0 nSweeps /\
    Forall (fun row => fst row <= snd row) (runBounds (acc_inds r) nSweeps) /\
    (leading labels 0 = Some "1"%char ->
     forall k a b,
       nth_error (acc_runs r) k = Some a ->
       nth_error (acc_runs r) (S k) = Some b -> a <> b).
Proof.
  intros Hd Ht -> Hn Hall.
  destruct (getRuns_kinds labels dps sts Hd Ht Hn Hall)
    as (r & Er & (rest & Ei & Hasc) & Hkinds).
  destruct (getRuns_lengths labels dps sts Hd Ht) as (r' & Er' & Hlen);
    [lia|apply label_ok_nonempty; assumption|].
  rewrite Er in Er'. injection Er' as <-.
  destruct Hlen as (_ & _ & _ & Hlen).
  rewrite no_unmapped_boundaries in Hlen by assumption.
  exists r. split; [assumption|]. rewrite Ei in *.
  destruct (runBounds_partition 0 rest (size labels - 1) (size labels) Hasc)
    as (Hflat & Hne & Hlb); [lia|].
  repeat split; try assumption.
  - rewrite Hlb. cbn [List.length] in Hlen. lia.
  - intros H0 k a b Ha Hb. destruct (Hkinds H0) as [Halt _].
    exact (alternating_nth _ k a b Halt Ha Hb).
Qed.

Lemma C2_runs_partition_sweeps_witness :
  exists r,
    getRuns ["1"; "1"; "b"; "0"; "0"; "1"] [100; 100; 100; 100; 100; 100]
            [0; 0; 0; 0; 0; 0]%float = Ok r /\
    List.length (runBounds (acc_inds r) 6) = List.length (acc_runs r) /\
    flat_map sweeps_of (runBounds (acc_inds r) 6) = range 0 6 /\
    Forall (fun row => fst row <= snd row) (runBounds (acc_inds r) 6) /\
    (leading ["1"; "1"; "b"; "0"; "0"; "1"] 0 = Some "1"%char ->
     forall k a b,
       nth_error (acc_runs r) k = Some a ->
       nth_error (acc_runs r) (S k) = Some b -> a <> b).
Proof.
  apply (C2_runs_partition_sweeps
           ["1"; "1"; "b"; "0"; "0"; "1"] [100; 100; 100; 100; 100; 100]
           [0; 0; 0; 0; 0; 0]%float 6).
  - reflexivity.
  - reflexivity.
  - reflexivity.
  - cbn. lia.
  - reflexivity.
Defined.

(** C2, as stated, fails: the four labels "0","0","1","1" all start with a
    recognised character, yet getRuns returns two consecutive runs of kind
    baseline (the first run is baseline whatever the first label is). *)
Lemma C2_counterexample_same_kind_twice :
  forallb label_ok ["0"; "0"; "1"; "1"] = true /\
  (2 <= List.length ["0"; "0"; "1"; "1"])%nat /\
  getRuns ["0"; "0"; "1"; "1"] [100; 100; 100; 100] [0; 0; 0; 0]%float
  = Ok (mk_runs_acc ["baseline"; "baseline"] [0; 2] [0; 0]%float [100; 100]
                    ["amperes"; "amperes"]) /\
  nth_error ["baseline"; "baseline"] 0 = nth_error ["baseline"; "baseline"] 1.
Proof. repeat split. cbn. lia. Qed.

(** C3, as amended. On sweep arrays of one length N >= 1 whose labels are
    not empty, getRuns raises nothing, whatever the labels start with. A
    sweep that opens a run with a leading character other than 'b', '0',
    '1' adds a start index, a point count and a start time but neither a
    kind nor a unit: the lists of kinds and of units have the same length,
    and they are shorter than the list of start indices by the number of
    such sweeps. *)
Theorem C3_unrecognised_label_not_reported (labels : list string)
        (dps : list Z) (sts : list float) :
  List.length dps = List.length labels ->
  List.length sts = List.length labels ->
  (1 <= List.length labels)%nat ->
  forallb nonempty labels = true ->
  exists r,
    getRuns labels dps sts = Ok r /\
    List.length (acc_runs r) = List.length (acc_units r) /\
    List.length (acc_startTimes r) = List.length (acc_inds r) /\
    List.length (acc_dataPoints r) = List.length (acc_inds r) /\
    List.length (acc_inds r)
    = (List.length (acc_runs r)
       + unmapped_boundaries labels (size labels - 1))%nat.
Proof.
  intros Hd Ht Hn Hall.
  destruct (getRuns_lengths labels dps sts Hd Ht Hn Hall) as (r & Er & H).
  exists r. split; [assumption|exact H].
Qed.

Lemma C3_unrecognised_label_not_reported_witness :
  exists r,
    getRuns ["1"; "x1"; "x2"; "1"; "1"] [7; 7; 7; 7; 7] [0; 1; 2; 3; 4]%float
    = Ok r /\
    List.length (acc_runs r) = List.length (acc_units r) /\
    List.length (acc_startTimes r) = List.length (acc_inds r) /\
    List.length (acc_dataPoints r) = List.length (acc_inds r) /\
    List.length (acc_inds r)
    = (List.length (acc_runs r)
       + unmapped_boundaries ["1"; "x1"; "x2"; "1"; "1"]
           (size ["1"; "x1"; "x2"; "1"; "1"] - 1))%nat.
Proof.
  apply (C3_unrecognised_label_not_reported
           ["1"; "x1"; "x2"; "1"; "1"] [7; 7; 7; 7; 7] [0; 1; 2; 3; 4]%float).
  - reflexivity.
  - reflexivity.
  - cbn. lia.
  - reflexivity.
Defined.

(** C3, as stated, fails: sweep 1 of the labels "1","x1","x2","1","1" opens
    a run with the leading character 'x'; getRuns returns normally, with
    three start indices and only two kinds, the run that starts at sweep 1
    having none. *)
Lemma C3_counterexample_no_error :
  unmapped_boundary ["1"; "x1"; "x2"; "1"; "1"] 1 = true /\
  getRuns ["1"; "x1"; "x2"; "1"; "1"] [7; 7; 7; 7; 7] [0; 1; 2; 3; 4]%float
  = Ok (mk_runs_acc ["baseline"; "baseline"] [0; 1; 3] [0; 1; 3]%float
                    [7; 7; 7] ["amperes"; "amperes"]).
Proof. split; reflexivity. Qed.

(** ** The series builders *)

Lemma bind_Ok {A B : Type} (m : result A) (k : A -> result B) (b : B) :
  bind m k = Ok b -> exists a, m = Ok a /\ k a = Ok b.
Proof.
  destruct m as [a|e]; cbn; [|discriminate]. intros H. exists a.
  split; [reflexivity|assumption].
Qed.

Lemma setCClampSeries_Ok (input : CClamp.inputStruct)
      (stim resp : NWB.series) :
  setCClampSeries input = Ok (stim, resp) ->
  exists n id,
    getitem (CClamp.sweepOrder input) 0 = Ok n /\
    getitem (CClamp.sweepOrder input) 1 = Ok id /\
    stim = NWB.mk_series NWB.CurrentClampStimulusSeries (series_name n)
             "Plasticity condition" (CClamp.data input) 1%float "amperes"
             (CClamp.electrode input)
             "Plasticity protocol: Simultaneous current and light stimulation"
             (CClamp.startTime input) (CClamp.samplingRate input) id /\
    resp = NWB.mk_series NWB.CurrentClampSeries (series_name n)
             "Plasticity condition" (CClamp.data input) 1%float
             (CClamp.unit input) (CClamp.electrode input)
             "Plasticity protocol: Simultaneous current and light stimulation"
             (CClamp.startTime input) (CClamp.samplingRate input) id.
Proof.
  unfold setCClampSeries. intros H.
  apply bind_Ok in H as (n & En & H). apply bind_Ok in H as (id & Eid & H).
  injection H as <- <-. exists n, id. repeat split; assumption.
Qed.

Lemma setVClampSeries_Ok (input : VClamp.inputStruct)
      (stim resp : NWB.series) :
  setVClampSeries input = Ok (stim, resp) ->
  exists n id description stimDescription,
    getitem (VClamp.sweepOrder input) 0 = Ok n /\
    getitem (VClamp.sweepOrder input) 1 = Ok id /\
    describe (VClamp.condition input) (VClamp.stimState input)
    = Some (description, stimDescription) /\
    stim = NWB.mk_series NWB.VoltageClampStimulusSeries (series_name n)
             description (VClamp.data input) 1%float "volts"
             (VClamp.electrode input) stimDescription
             (VClamp.startTime input) (VClamp.samplingRate input) id /\
    resp = NWB.mk_series NWB.VoltageClampSeries (series_name n)
             description (VClamp.data input) 1%float (VClamp.unit input)
             (VClamp.electrode input) stimDescription
             (VClamp.startTime input) (VClamp.samplingRate input) id.
Proof.
  unfold setVClampSeries. intros H.
  apply bind_Ok in H as (n & En & H).
  apply bind_Ok in H as ([description stimDescription] & Et & H).
  apply bind_Ok in H as (id & Eid & H).
  injection H as <- <-. exists n, id, description, stimDescription.
  repeat split; try assumption.
  destruct (describe _ _) as [texts|]; [|discriminate].
  cbn in Et. congruence.
Qed.

Lemma describe_assigned (condition : string) (stimState : Z) :
  texts_assigned condition stimState = true <->
  exists texts, describe condition stimState = Some texts.
Proof.
  unfold texts_assigned, describe.
  destruct (String.eqb condition "baseline") eqn:Eb.
  - apply String.eqb_eq in Eb. subst condition. cbn.
    destruct (stimState =? 0); cbn; [split; eauto|].
    destruct (stimState =? 1); cbn; [split; eauto|].
    split; [discriminate|]. intros [texts H]. discriminate.
  - cbn. destruct (String.eqb condition "break"); [split; eauto|].
    split; [discriminate|]. intros [texts H]. discriminate.
Qed.

(** C10. setVClampSeries returns a pair of series only when the condition
    is 'baseline' with state code 0 or 1, or 'break'. For every other
    combination of condition and state code (state code 9 in a baseline
    run, a condition that is neither) [description] and [stimDescription]
    are never assigned, and the function raises UnboundLocalError, a
    NameError, at their first use: this as soon as input['sweepOrder'][0]
    can be read. Under the condition, and with the two entries of
    sweepOrder present, it does return. *)
Theorem C10_setVClampSeries_partial (input : VClamp.inputStruct) :
  (forall pair, setVClampSeries input = Ok pair ->
     texts_assigned (VClamp.condition input) (VClamp.stimState input) = true)
  /\
  (texts_assigned (VClamp.condition input) (VClamp.stimState input) = false ->
   VClamp.sweepOrder input <> [] ->
   describe (VClamp.condition input) (VClamp.stimState input) = None /\
   setVClampSeries input = Raise UnboundLocalError /\
   is_NameError UnboundLocalError = true)
  /\
  (texts_assigned (VClamp.condition input) (VClamp.stimState input) = true ->
   (2 <= List.length (VClamp.sweepOrder input))%nat ->
   exists pair, setVClampSeries input = Ok pair).
Proof.
  split; [|split].
  - intros [stim resp] H.
    apply setVClampSeries_Ok in H as (n & id & de & sd & _ & _ & Ed & _).
    apply describe_assigned. eauto.
  - intros Hpre Hne.
    assert (describe (VClamp.condition input) (VClamp.stimState input) = None)
      as Ed.
    { destruct (describe _ _) as [texts|] eqn:Ed; [|reflexivity].
      assert (texts_assigned (VClamp.condition input) (VClamp.stimState input)
              = true) by (apply describe_assigned; eauto).
      congruence. }
    split; [assumption|]. split; [|reflexivity].
    unfold setVClampSeries.
    destruct (getitem_nth (VClamp.sweepOrder input) 0) as (n & -> & _).
    { unfold size. destruct (VClamp.sweepOrder input); [congruence|cbn; lia]. }
    cbn [bind]. rewrite Ed. reflexivity.
  - intros Hpre Hlen. apply describe_assigned in Hpre as [[de sd] Ed].
    unfold setVClampSeries.
    destruct (getitem_nth (VClamp.sweepOrder input) 0) as (n & -> & _);
      [unfold size; lia|].
    destruct (getitem_nth (VClamp.sweepOrder input) 1) as (id & -> & _);
      [unfold size; lia|].
    rewrite Ed. cbn. eauto.
Qed.

Lemma C10_setVClampSeries_partial_witness :
  setVClampSeries
    (VClamp.mk 2%float 0%float [1%float] electrode "baseline" 9 "amperes"
               [3; 3])
  = Raise UnboundLocalError.
Proof.
  apply (proj1 (proj2 (C10_setVClampSeries_partial
           (VClamp.mk 2%float 0%float [1%float] electrode "baseline" 9
                      "amperes" [3; 3])))).
  - reflexivity.
  - discriminate.
Defined.

(** ** The sweep loop *)

(** What a completed iteration of the sweep loop has read and called. *)
Lemma sweep_series_Ok (d : recording) (runs runUnits : list string)
      (runInds : list (Z * Z)) (sweep : Z) (pair : NWB.series * NWB.series) :
  sweep_series d runs runUnits runInds sweep = Ok pair ->
  exists run start column cond state u id,
    getitem (np_where (map (in_run sweep) runInds)) 0 = Ok run /\
    getitem (sweepStartTimes d) sweep = Ok start /\
    getitem (values d) sweep = Ok column /\
    getitem runs run = Ok cond /\
    getitem (sweepStates d) sweep = Ok state /\
    getitem runUnits run = Ok u /\
    getitem (sweepIDs d) sweep = Ok id /\
    (if String.eqb cond "plasticity"
     then setCClampSeries
            (CClamp.mk (1 / interval d)%float start
                       (scale column ccScaleFactor) electrode u
                       [sweep + 1; id]) = Ok pair
     else setVClampSeries
            (VClamp.mk (1 / interval d)%float start
                       (scale column vcScaleFactor) electrode cond state u
                       [sweep + 1; id]) = Ok pair).
Proof.
  unfold sweep_series. intros H.
  apply bind_Ok in H as (run & E1 & H).
  apply bind_Ok in H as (start & E2 & H).
  apply bind_Ok in H as (column & E3 & H).
  apply bind_Ok in H as (cond & E4 & H).
  apply bind_Ok in H as (state & E5 & H).
  apply bind_Ok in H as (u & E6 & H).
  apply bind_Ok in H as (id & E7 & H).
  exists run, start, column, cond, state, u, id.
  repeat (split; [assumption|]).
  destruct (String.eqb cond "plasticity"); assumption.
Qed.

Lemma sweepOrder_items (a b : Z) :
  getitem [a; b] 0 = Ok a /\ getitem [a; b] 1 = Ok b.
Proof. split; reflexivity. Qed.

(** The fields of a pair built by the sweep loop. *)
Lemma sweep_series_fields (d : recording) (runs runUnits : list string)
      (runInds : list (Z * Z)) (sweep : Z) (stim resp : NWB.series) :
  sweep_series d runs runUnits runInds sweep = Ok (stim, resp) ->
  exists run start column cond u id description stimDescription,
    getitem (np_where (map (in_run sweep) runInds)) 0 = Ok run /\
    getitem (sweepStartTimes d) sweep = Ok start /\
    getitem (values d) sweep = Ok column /\
    getitem runs run = Ok cond /\
    getitem runUnits run = Ok u /\
    getitem (sweepIDs d) sweep = Ok id /\
    let plasticity := String.eqb cond "plasticity" in
    let samples :=
      scale column (if plasticity then ccScaleFactor else vcScaleFactor) in
    stim = NWB.mk_series
             (if plasticity then NWB.CurrentClampStimulusSeries
              else NWB.VoltageClampStimulusSeries)
             (series_name (sweep + 1)) description samples 1%float
             (if plasticity then "amperes" else "volts") electrode
             stimDescription start (1 / interval d)%float id /\
    resp = NWB.mk_series
             (if plasticity then NWB.CurrentClampSeries
              else NWB.VoltageClampSeries)
             (series_name (sweep + 1)) description samples 1%float
             u electrode stimDescription start (1 / interval d)%float id.
Proof.
  intros H.
  apply sweep_series_Ok in H
    as (run & start & column & cond & state & u & id
        & E1 & E2 & E3 & E4 & E5 & E6 & E7 & H).
  destruct (String.eqb cond "plasticity") eqn:Ep.
  - apply setCClampSeries_Ok in H as (n & id' & En & Eid & -> & ->).
    cbn [CClamp.sweepOrder] in En, Eid.
    destruct (sweepOrder_items (sweep + 1) id) as [E0 E1'].
    rewrite E0 in En. rewrite E1' in Eid.
    injection En as <-. injection Eid as <-.
    exists run, start, column, cond, u, id. do 2 eexists.
    repeat (split; [eassumption|]). rewrite Ep. cbn zeta.
    split; reflexivity.
  - apply setVClampSeries_Ok in H
      as (n & id' & de & sd & En & Eid & _ & -> & ->).
    cbn [VClamp.sweepOrder] in En, Eid.
    destruct (sweepOrder_items (sweep + 1) id) as [E0 E1'].
    rewrite E0 in En. rewrite E1' in Eid.
    injection En as <-. injection Eid as <-.
    exists run, start, column, cond, u, id, de, sd.
    repeat (split; [eassumption|]). rewrite Ep. cbn zeta.
    split; reflexivity.
Qed.

Lemma six_sweeps_segmentation :
  exists r,
    getRuns (sweepLabels six_sweeps) (sweepDataPoints six_sweeps)
            (sweepStartTimes six_sweeps) = Ok r /\
    acc_runs r = six_sweeps_runs /\
    acc_units r = six_sweeps_units /\
    runBounds (acc_inds r) (size (sweepIDs six_sweeps)) = six_sweeps_bounds.
Proof. eexists. split; [vm_compute; reflexivity|]. repeat split. Qed.

Lemma six_sweeps_sweep0 :
  sweep_series six_sweeps six_sweeps_runs six_sweeps_units six_sweeps_bounds 0
  = Ok (stimulus0, response0).
Proof. vm_compute. reflexivity. Qed.

Lemma six_sweeps_sweep3 :
  sweep_series six_sweeps six_sweeps_runs six_sweeps_units six_sweeps_bounds 3
  = Ok (stimulus3, response3).
Proof. vm_compute. reflexivity. Qed.

Lemma scale_factors_differ :
  scale [1%float] ccScaleFactor <> scale [1%float] vcScaleFactor.
Proof.
  intros H.
  apply (f_equal (fun l => match l with
                           | x :: _ => PrimFloat.ltb x ccScaleFactor
                           | [] => false
                           end)) in H.
  vm_compute in H. discriminate.
Qed.

(** ** Claims on the series builder *)

(** C6, as amended. Every pair the sweep loop builds holds the sweep's
    column of samples multiplied, once, by one of two session-wide
    constants chosen by the kind of the sweep's run: for a plasticity run,
    whose sweeps are built as current-clamp series by setCClampSeries, the
    constant is ccScaleFactor; for every other run (baseline, break), whose
    sweeps are built as voltage-clamp series by setVClampSeries, it is
    vcScaleFactor. *)
Theorem C6_scale_factor_by_run_kind (d : recording)
        (runs runUnits : list string) (runInds : list (Z * Z)) (sweep : Z)
        (stim resp : NWB.series) :
  sweep_series d runs runUnits runInds sweep = Ok (stim, resp) ->
  exists run cond column,
    getitem (np_where (map (in_run sweep) runInds)) 0 = Ok run /\
    getitem runs run = Ok cond /\
    getitem (values d) sweep = Ok column /\
    if String.eqb cond "plasticity"
    then NWB.cls stim = NWB.CurrentClampStimulusSeries /\
         NWB.cls resp = NWB.CurrentClampSeries /\
         NWB.data stim = scale column ccScaleFactor /\
         NWB.data resp = scale column ccScaleFactor
    else NWB.cls stim = NWB.VoltageClampStimulusSeries /\
         NWB.cls resp = NWB.VoltageClampSeries /\
         NWB.data stim = scale column vcScaleFactor /\
         NWB.data resp = scale column vcScaleFactor.
Proof.
  intros H.
  apply sweep_series_fields in H
    as (run & start & column & cond & u & id & de & sd
        & E1 & E2 & E3 & E4 & E5 & E6 & H).
  cbn zeta in H. destruct H as [-> ->].
  exists run, cond, column. repeat (split; [assumption|]).
  destruct (String.eqb cond "plasticity"); repeat split.
Qed.

Lemma C6_scale_factor_by_run_kind_witness :
  exists run cond column,
    getitem (np_where (map (in_run 3) six_sweeps_bounds)) 0 = Ok run /\
    getitem six_sweeps_runs run = Ok cond /\
    getitem (values six_sweeps) 3 = Ok column /\
    if String.eqb cond "plasticity"
    then NWB.cls stimulus3 = NWB.CurrentClampStimulusSeries /\
         NWB.cls response3 = NWB.CurrentClampSeries /\
         NWB.data stimulus3 = scale column ccScaleFactor /\
         NWB.data response3 = scale column ccScaleFactor
    else NWB.cls stimulus3 = NWB.VoltageClampStimulusSeries /\
         NWB.cls response3 = NWB.VoltageClampSeries /\
         NWB.data stimulus3 = scale column vcScaleFactor /\
         NWB.data response3 = scale column vcScaleFactor.
Proof.
  apply (C6_scale_factor_by_run_kind six_sweeps six_sweeps_runs
           six_sweeps_units six_sweeps_bounds 3 stimulus3 response3).
  vm_compute. reflexivity.
Defined.

(** C6, as stated, fails: sweep 3 of [six_sweeps] lies in the plasticity
    run, and its pair is a current-clamp pair whose samples are the column
    times ccScaleFactor, which differs from the column times
    vcScaleFactor. *)
Lemma C6_counterexample_plasticity_current_clamp :
  getitem (np_where (map (in_run 3) six_sweeps_bounds)) 0 = Ok 2 /\
  getitem six_sweeps_runs 2 = Ok "plasticity" /\
  getitem (values six_sweeps) 3 = Ok [1%float] /\
  sweep_series six_sweeps six_sweeps_runs six_sweeps_units six_sweeps_bounds 3
  = Ok (stimulus3, response3) /\
  NWB.cls response3 = NWB.CurrentClampSeries /\
  NWB.data response3 = scale [1%float] ccScaleFactor /\
  NWB.data response3 <> scale [1%float] vcScaleFactor.
Proof.
  repeat (split; [vm_compute; reflexivity|]).
  exact scale_factors_differ.
Qed.

(** C7. Every pair the sweep loop builds satisfies: the response series
    carries the unit of the sweep's run (runUnits[run]); the stimulus
    series carries 'volts' when the pair is a voltage-clamp pair and
    'amperes' when it is a current-clamp pair; stimulus and response hold
    the same data; both have gain 1.0, rate 1/interval, the sweep's start
    time as starting_time and the sweep's id (sweepIDs[sweep]) as
    sweep_number. And pairs of both kinds are built: in [six_sweeps] the
    loop builds the voltage-clamp pair of sweep 0 through setVClampSeries
    and the current-clamp pairs of the sweeps 3 and 5 of the plasticity
    run through setCClampSeries, with these very fields. *)
Theorem C7_series_pair_fields :
  (forall (d : recording) (runs runUnits : list string)
          (runInds : list (Z * Z)) (sweep : Z) (stim resp : NWB.series),
      sweep_series d runs runUnits runInds sweep = Ok (stim, resp) ->
      exists run cond,
        getitem (np_where (map (in_run sweep) runInds)) 0 = Ok run /\
        getitem runs run = Ok cond /\
        getitem runUnits run = Ok (NWB.unit resp) /\
        (if String.eqb cond "plasticity"
         then NWB.cls stim = NWB.CurrentClampStimulusSeries /\
              NWB.cls resp = NWB.CurrentClampSeries /\
              NWB.unit stim = "amperes"
         else NWB.cls stim = NWB.VoltageClampStimulusSeries /\
              NWB.cls resp = NWB.VoltageClampSeries /\
              NWB.unit stim = "volts") /\
        NWB.data stim = NWB.data resp /\
        NWB.gain stim = 1%float /\ NWB.gain resp = 1%float /\
        NWB.rate stim = (1 / interval d)%float /\
        NWB.rate resp = (1 / interval d)%float /\
        getitem (sweepStartTimes d) sweep = Ok (NWB.starting_time stim) /\
        NWB.starting_time resp = NWB.starting_time stim /\
        getitem (sweepIDs d) sweep = Ok (NWB.sweep_number stim) /\
        NWB.sweep_number resp = NWB.sweep_number stim) /\
  sweep_series six_sweeps six_sweeps_runs six_sweeps_units six_sweeps_bounds 0
  = Ok (stimulus0, response0) /\
  sweep_series six_sweeps six_sweeps_runs six_sweeps_units six_sweeps_bounds 3
  = Ok (stimulus3, response3) /\
  sweep_series six_sweeps six_sweeps_runs six_sweeps_units six_sweeps_bounds 5
  = Ok (stimulus5, response5) /\
  setVClampSeries
    (VClamp.mk 2%float 0%float (scale [1%float] vcScaleFactor) electrode
               "baseline" 0 "amperes" [1; 5])
  = Ok (stimulus0, response0) /\
  setCClampSeries
    (CClamp.mk 2%float 25%float (scale [1%float] ccScaleFactor) electrode
               "volts" [6; 10])
  = Ok (stimulus5, response5).
Proof.
  split; [|repeat split; vm_compute; reflexivity].
  intros d runs runUnits runInds sweep stim resp H.
  apply sweep_series_fields in H
    as (run & start & column & cond & u & id & de & sd
        & E1 & E2 & E3 & E4 & E5 & E6 & H).
  cbn zeta in H. destruct H as [-> ->].
  exists run, cond. cbn.
  repeat (split; [assumption || reflexivity|]).
  split; [destruct (String.eqb cond "plasticity"); repeat split|].
  repeat (split; [assumption || reflexivity|]). reflexivity.
Qed.

Lemma C7_series_pair_fields_witness :
  (exists run cond,
    getitem (np_where (map (in_run 0) six_sweeps_bounds)) 0 = Ok run /\
    getitem six_sweeps_runs run = Ok cond /\
    getitem six_sweeps_units run = Ok (NWB.unit response0) /\
    (if String.eqb cond "plasticity"
     then NWB.cls stimulus0 = NWB.CurrentClampStimulusSeries /\
          NWB.cls response0 = NWB.CurrentClampSeries /\
          NWB.unit stimulus0 = "amperes"
     else NWB.cls stimulus0 = NWB.VoltageClampStimulusSeries /\
          NWB.cls response0 = NWB.VoltageClampSeries /\
          NWB.unit stimulus0 = "volts") /\
    NWB.data stimulus0 = NWB.data response0 /\
    NWB.gain stimulus0 = 1%float /\ NWB.gain response0 = 1%float /\
    NWB.rate stimulus0 = (1 / interval six_sweeps)%float /\
    NWB.rate response0 = (1 / interval six_sweeps)%float /\
    getitem (sweepStartTimes six_sweeps) 0 = Ok (NWB.starting_time stimulus0) /\
    NWB.starting_time response0 = NWB.starting_time stimulus0 /\
    getitem (sweepIDs six_sweeps) 0 = Ok (NWB.sweep_number stimulus0) /\
    NWB.sweep_number response0 = NWB.sweep_number stimulus0) /\
  (exists run cond,
    getitem (np_where (map (in_run 5) six_sweeps_bounds)) 0 = Ok run /\
    getitem six_sweeps_runs run = Ok cond /\
    getitem six_sweeps_units run = Ok (NWB.unit response5) /\
    (if String.eqb cond "plasticity"
     then NWB.cls stimulus5 = NWB.CurrentClampStimulusSeries /\
          NWB.cls response5 = NWB.CurrentClampSeries /\
          NWB.unit stimulus5 = "amperes"
     else NWB.cls stimulus5 = NWB.VoltageClampStimulusSeries /\
          NWB.cls response5 = NWB.VoltageClampSeries /\
          NWB.unit stimulus5 = "volts") /\
    NWB.data stimulus5 = NWB.data response5 /\
    NWB.gain stimulus5 = 1%float /\ NWB.gain response5 = 1%float /\
    NWB.rate stimulus5 = (1 / interval six_sweeps)%float /\
    NWB.rate response5 = (1 / interval six_sweeps)%float /\
    getitem (sweepStartTimes six_sweeps) 5 = Ok (NWB.starting_time stimulus5) /\
    NWB.starting_time response5 = NWB.starting_time stimulus5 /\
    getitem (sweepIDs six_sweeps) 5 = Ok (NWB.sweep_number stimulus5) /\
    NWB.sweep_number response5 = NWB.sweep_number stimulus5).
Proof.
  split.
  - apply (proj1 C7_series_pair_fields six_sweeps six_sweeps_runs
             six_sweeps_units six_sweeps_bounds 0 stimulus0 response0).
    vm_compute. reflexivity.
  - apply (proj1 C7_series_pair_fields six_sweeps six_sweeps_runs
             six_sweeps_units six_sweeps_bounds 5 stimulus5 response5).
    vm_compute. reflexivity.
Defined.

(** C8, as amended. Both series of every pair the sweep loop builds are
    named "PatchClampSeries" followed by the sweep's 1-based position in
    the session (sweep index + 1, which is sweepOrder[0]; the sweep's id is
    sweepOrder[1] and only becomes the sweep_number), zero-padded to 3
    digits: a position below 10 gets two leading zeros, one below 100 gets
    one, one from 100 on gets none. So 7 gives "PatchClampSeries007", 42
    gives "PatchClampSeries042" and 123 gives "PatchClampSeries123". *)
Theorem C8_series_named_by_position :
  (forall (d : recording) (runs runUnits : list string)
          (runInds : list (Z * Z)) (sweep : Z) (stim resp : NWB.series),
      sweep_series d runs runUnits runInds sweep = Ok (stim, resp) ->
      let n := sweep + 1 in
      let zeros := if n <? 10 then "00" else if n <? 100 then "0" else "" in
      NWB.name stim = ("PatchClampSeries" ++ zeros ++ str n)%string /\
      NWB.name resp = ("PatchClampSeries" ++ zeros ++ str n)%string) /\
  series_name 7 = "PatchClampSeries007" /\
  series_name 42 = "PatchClampSeries042" /\
  series_name 123 = "PatchClampSeries123".
Proof.
  split; [|repeat split].
  intros d runs runUnits runInds sweep stim resp H.
  apply sweep_series_fields in H
    as (run & start & column & cond & u & id & de & sd
        & E1 & E2 & E3 & E4 & E5 & E6 & H).
  cbn zeta in H. destruct H as [-> ->]. split; reflexivity.
Qed.

Lemma C8_series_named_by_position_witness :
  NWB.name stimulus3 = "PatchClampSeries004" /\
  NWB.name response3 = "PatchClampSeries004".
Proof.
  apply (proj1 C8_series_named_by_position six_sweeps six_sweeps_runs
           six_sweeps_units six_sweeps_bounds 3 stimulus3 response3).
  vm_compute. reflexivity.
Defined.

(** C8, as stated, fails: sweep 0 of [six_sweeps] has the id 5, which is
    its sweep_number, and both its series are named "PatchClampSeries001",
    not "PatchClampSeries005". *)
Lemma C8_counterexample_name_not_from_id :
  getitem (sweepIDs six_sweeps) 0 = Ok 5 /\
  sweep_series six_sweeps six_sweeps_runs six_sweeps_units six_sweeps_bounds 0
  = Ok (stimulus0, response0) /\
  NWB.sweep_number stimulus0 = 5 /\
  NWB.name stimulus0 = "PatchClampSeries001" /\
  NWB.name response0 = "PatchClampSeries001" /\
  NWB.name stimulus0 <> series_name 5.
Proof.
  repeat (split; [vm_compute; reflexivity|]).
  vm_compute. discriminate.
Qed.

(** ** The sequential recording loop *)

Lemma select_stimulusType_map (state : Z) (prev : option string) :
  select_stimulusType state prev
  = match stimulus_map state with
    | Some t => Some t
    | None => prev
    end.
Proof.
  unfold select_stimulusType, stimulus_map.
  repeat (destruct (_ =? _); [reflexivity|]). reflexivity.
Qed.

Lemma last_tag_cons (prev : option string) (r : seq_row) (rows : list seq_row) :
  last_tag prev (r :: rows) = last_tag (Some (stimulus_type r)) rows.
Proof.
  unfold last_tag. cbn [rev].
  destruct (rev rows) as [|x xs]; reflexivity.
Qed.

Lemma tags_chain_snoc (prev : option string) (rows : list seq_row)
      (r : seq_row) :
  tags_chain prev rows ->
  select_stimulusType (row_state r) (last_tag prev rows)
  = Some (stimulus_type r) ->
  tags_chain prev (rows ++ [r]).
Proof.
  revert prev. induction rows as [|x rows IH]; intros prev Hc Hr.
  - cbn. split; [exact Hr|exact I].
  - destruct Hc as [Hx Hc]. cbn. split; [assumption|].
    apply IH; [assumption|]. rewrite last_tag_cons in Hr. exact Hr.
Qed.

Lemma last_tag_snoc (prev : option string) (rows : list seq_row)
      (r : seq_row) :
  last_tag prev (rows ++ [r]) = Some (stimulus_type r).
Proof. unfold last_tag. rewrite rev_unit. reflexivity. Qed.

Lemma for_each_inv {S X : Type} (P : S -> Prop) (body : S -> X -> result S)
      (xs : list X) (s0 s' : S) :
  (forall s x s1, P s -> body s x = Ok s1 -> P s1) ->
  P s0 -> for_each body xs s0 = Ok s' -> P s'.
Proof.
  intros Hstep. revert s0. induction xs as [|x xs IH]; intros s0 H0 H.
  - cbn in H. injection H as <-. assumption.
  - cbn in H. apply bind_Ok in H as (s1 & E1 & H).
    apply (IH s1); [|assumption]. exact (Hstep s0 x s1 H0 E1).
Qed.

(** A completed iteration of the inner loop: the row it adds. *)
Lemma state_body_Ok (condStates rowIndicesSimRec : list Z) (iRun : Z)
      (v v' : seq_vars) (state : Z) :
  state_body condStates rowIndicesSimRec iRun v state = Ok v' ->
  exists recs tag,
    comprehension (getitem rowIndicesSimRec)
                  (np_where (map (fun c => c =? state) condStates)) = Ok recs /\
    select_stimulusType state (stimulusType v) = Some tag /\
    v' = mk_seq_vars (seqGroupCount v + 1) (Some tag)
           (seq_table v ++ [mk_seq_row iRun state recs tag (seqGroupCount v)]).
Proof.
  unfold state_body. intros H.
  apply bind_Ok in H as (recs & Er & H).
  apply bind_Ok in H as (tag & Et & H).
  injection H as <-. exists recs, tag. repeat split; [assumption|].
  destruct (select_stimulusType state (stimulusType v)); [|discriminate].
  cbn in Et. congruence.
Qed.

Lemma state_body_tags (condStates rowIndicesSimRec : list Z) (iRun : Z)
      (v v' : seq_vars) (state : Z) :
  tags_inv v ->
  state_body condStates rowIndicesSimRec iRun v state = Ok v' ->
  tags_inv v'.
Proof.
  intros [Hc Hl] H. apply state_body_Ok in H as (recs & tag & _ & Et & ->).
  split; cbn [seq_table stimulusType].
  - apply tags_chain_snoc; [assumption|]. rewrite <- Hl. exact Et.
  - symmetry. apply last_tag_snoc.
Qed.

Lemma sequential_recordings_tags (sweepStates : list Z)
      (runInds : list (Z * Z)) (rowIndicesSimRec : list Z) (nRuns : Z)
      (v : seq_vars) :
  sequential_recordings sweepStates runInds rowIndicesSimRec nRuns = Ok v ->
  tags_inv v.
Proof.
  unfold sequential_recordings.
  apply for_each_inv; [|split; [exact I|reflexivity]].
  intros s iRun s1 Hs H. unfold run_body in H.
  apply bind_Ok in H as (row & _ & H).
  apply bind_Ok in H as (condStates & _ & H).
  revert H. apply for_each_inv; [|assumption].
  intros s2 state s3 Hs2. apply state_body_tags. assumption.
Qed.

Lemma tags_chain_mapped (prev : option string) (rows : list seq_row)
      (r : seq_row) (t : string) :
  tags_chain prev rows -> In r rows ->
  stimulus_map (row_state r) = Some t -> stimulus_type r = t.
Proof.
  revert prev. induction rows as [|x rows IH]; intros prev Hc Hin Hm;
    [destruct Hin|].
  destruct Hc as [Hx Hc]. destruct Hin as [->|Hin].
  - rewrite select_stimulusType_map, Hm in Hx. congruence.
  - exact (IH _ Hc Hin Hm).
Qed.

Lemma tags_chain_reused (prev : option string) (rows : list seq_row)
      (k : nat) (before r : seq_row) :
  tags_chain prev rows ->
  nth_error rows k = Some before -> nth_error rows (S k) = Some r ->
  stimulus_map (row_state r) = None ->
  stimulus_type r = stimulus_type before.
Proof.
  revert prev k. induction rows as [|x rows IH]; intros prev k Hc Hb Hr Hm;
    [destruct k; discriminate|].
  destruct Hc as [Hx Hc]. destruct k as [|k].
  - cbn in Hb. injection Hb as ->. cbn in Hr.
    destruct rows as [|y rows]; [discriminate|]. cbn in Hr. injection Hr as ->.
    destruct Hc as [Hy _].
    rewrite select_stimulusType_map, Hm in Hy. congruence.
  - exact (IH _ k Hc Hb Hr Hm).
Qed.

(** ** Claims on the hierarchy assembler *)

(** C9, as amended. In the table of sequential recordings the script
    builds, every row whose state code is 0, 1, 2 or 9 carries the tag
    "light", "current", "combined" or "noStim" of that code. A state code
    outside {0,1,2,9} is not checked: no branch of the chain assigns
    stimulusType, so the row is added with the tag of the row added just
    before it, and the script stops (NameError) only when no row was added
    before, which is why the first row of a table always has a code of the
    four. *)
Theorem C9_stimulus_type_tags :
  (forall (sweepStates : list Z) (runInds : list (Z * Z))
          (rowIndicesSimRec : list Z) (nRuns : Z) (v : seq_vars),
      sequential_recordings sweepStates runInds rowIndicesSimRec nRuns = Ok v ->
      (forall r t, In r (seq_table v) ->
                   stimulus_map (row_state r) = Some t -> stimulus_type r = t) /\
      (forall k before r,
          nth_error (seq_table v) k = Some before ->
          nth_error (seq_table v) (S k) = Some r ->
          stimulus_map (row_state r) = None ->
          stimulus_type r = stimulus_type before) /\
      (forall r, nth_error (seq_table v) 0 = Some r ->
                 stimulus_map (row_state r) <> None)) /\
  (forall (condStates rowIndicesSimRec : list Z) (iRun : Z) (v : seq_vars)
          (state : Z) (recs : list Z),
      stimulus_map state = None ->
      comprehension (getitem rowIndicesSimRec)
                    (np_where (map (fun c => c =? state) condStates)) = Ok recs ->
      state_body condStates rowIndicesSimRec iRun v state
      = match stimulusType v with
        | Some tag =>
            Ok (mk_seq_vars (seqGroupCount v + 1) (Some tag)
                  (seq_table v
                   ++ [mk_seq_row iRun state recs tag (seqGroupCount v)]))
        | None => Raise NameError
        end).
Proof.
  split.
  - intros sweepStates runInds rowIndicesSimRec nRuns v H.
    apply sequential_recordings_tags in H as [Hc _].
    split; [|split].
    + intros r t Hin Hm. exact (tags_chain_mapped None _ r t Hc Hin Hm).
    + intros k before r Hb Hr Hm.
      exact (tags_chain_reused None _ k before r Hc Hb Hr Hm).
    + intros r Hr Hm. destruct (seq_table v) as [|x rows]; [discriminate|].
      cbn in Hr. injection Hr as ->. destruct Hc as [Hx _].
      rewrite select_stimulusType_map, Hm in Hx. discriminate.
  - intros condStates rowIndicesSimRec iRun v state recs Hm Hrecs.
    unfold state_body. rewrite Hrecs. cbn [bind].
    rewrite select_stimulusType_map, Hm.
    destruct (stimulusType v); reflexivity.
Qed.

Lemma C9_stimulus_type_tags_witness :
  state_body [9; 10] [0; 1; 2; 3] 1
    (mk_seq_vars 1 (Some "noStim") [mk_seq_row 1 9 [0] "noStim" 0]) 10
  = Ok (mk_seq_vars 2 (Some "noStim")
          [mk_seq_row 1 9 [0] "noStim" 0; mk_seq_row 1 10 [1] "noStim" 1]).
Proof.
  apply (proj2 C9_stimulus_type_tags [9; 10] [0; 1; 2; 3] 1
           (mk_seq_vars 1 (Some "noStim") [mk_seq_row 1 9 [0] "noStim" 0])
           10 [1]).
  - reflexivity.
  - reflexivity.
Defined.

(** C9, as stated, fails: in [break_with_code_10] the break run holds a
    sweep with the state code 10, outside {0,1,2,9}. The script runs to its
    end, and the row for code 10 carries the tag "noStim" left over from
    the row for code 9. *)
Lemma C9_counterexample_tag_reused :
  stimulus_map 10 = None /\
  exists c,
    convert break_with_code_10 = Ok c /\
    runs c = ["baseline"; "break"] /\
    runInds c = [(0, 0); (1, 3)] /\
    sequential_table c
    = [mk_seq_row 1 9 [0] "noStim" 0; mk_seq_row 1 10 [1] "noStim" 1].
Proof.
  split; [reflexivity|]. eexists. split; [vm_compute; reflexivity|].
  repeat split.
Qed.

(** C4. On [five_sweeps] the script finds the runs baseline (sweeps 0-1)
    and break (sweeps 2-4). For the baseline run it adds one sequential
    recording, which references sweep 0 only: sweep 1, the last of the run,
    is in none, because np.arange stops before the run's last index. For
    the break run it adds one sequential recording, which references the
    sweeps 0 and 1: the positions found inside the run are used as
    positions in the session, so none of the run's own sweeps 2, 3, 4 is
    referenced. *)
Theorem C4_run_sweeps_not_covered :
  exists c,
    convert five_sweeps = Ok c /\
    runInds c = [(0, 1); (2, 4)] /\
    sequential_table c
    = [mk_seq_row 0 0 [0] "light" 0; mk_seq_row 1 9 [0; 1] "noStim" 1] /\
    sweeps_of (0, 1) = [0; 1] /\
    referenced_by_run 0 (sequential_table c) = [0] /\
    sweeps_of (2, 4) = [2; 3; 4] /\
    referenced_by_run 1 (sequential_table c) = [0; 1].
Proof.
  eexists. split; [vm_compute; reflexivity|]. repeat split.
Qed.

(** *** What the rows of a run reference, in general *)

Lemma np_where_bounds (mask : list bool) (x : Z) :
  In x (np_where mask) -> 0 <= x < size mask.
Proof.
  unfold np_where. rewrite in_map_iff. intros ([i m] & <- & Hin).
  apply filter_In in Hin as [Hin _]. apply in_combine_l in Hin.
  apply In_range in Hin. cbn. lia.
Qed.

Lemma getitem_range (n x : Z) :
  0 <= x < n -> getitem (range 0 n) x = Ok x.
Proof.
  intros H. destruct (getitem_nth (range 0 n) x) as (y & E & Hn).
  - unfold size. rewrite length_range. lia.
  - rewrite E. f_equal. unfold range in Hn.
    rewrite nth_error_map, nth_error_seq in Hn.
    destruct (Nat.ltb_spec (Z.to_nat x) (Z.to_nat (n - 0))) as [_|?]; [|lia].
    cbn in Hn. injection Hn as <-. lia.
Qed.

Lemma comprehension_In {X Y : Type} (f : X -> result Y) (xs : list X)
      (ys : list Y) (y : Y) :
  comprehension f xs = Ok ys -> In y ys -> exists x, In x xs /\ f x = Ok y.
Proof.
  revert ys. induction xs as [|x xs IH]; intros ys H Hin.
  - cbn in H. injection H as <-. destruct Hin.
  - cbn in H. apply bind_Ok in H as (y0 & E0 & H).
    apply bind_Ok in H as (ys0 & E1 & H). injection H as <-.
    destruct Hin as [->|Hin].
    + exists x. split; [left; reflexivity|assumption].
    + destruct (IH ys0 E1 Hin) as (x' & Hx' & Ex').
      exists x'. split; [right; assumption|assumption].
Qed.

Lemma comprehension_length {X Y : Type} (f : X -> result Y) (xs : list X)
      (ys : list Y) :
  comprehension f xs = Ok ys -> List.length ys = List.length xs.
Proof.
  revert ys. induction xs as [|x xs IH]; intros ys H.
  - cbn in H. injection H as <-. reflexivity.
  - cbn in H. apply bind_Ok in H as (y0 & E0 & H).
    apply bind_Ok in H as (ys0 & E1 & H). injection H as <-.
    cbn. f_equal. apply IH. assumption.
Qed.

Lemma sequential_recordings_positions (sweepStates : list Z)
      (runInds : list (Z * Z)) (nSweeps nRuns : Z) (v : seq_vars) :
  sequential_recordings sweepStates runInds (range 0 nSweeps) nRuns = Ok v ->
  Forall (positions_in_run runInds) (seq_table v).
Proof.
  unfold sequential_recordings.
  apply (for_each_inv
           (fun s => Forall (positions_in_run runInds) (seq_table s)));
    [|constructor].
  intros s iRun s1 Hs H. unfold run_body in H.
  apply bind_Ok in H as (row & Erow & H).
  apply bind_Ok in H as (condStates & Ec & H).
  apply comprehension_length in Ec. rewrite length_range in Ec.
  revert H.
  apply (for_each_inv
           (fun s => Forall (positions_in_run runInds) (seq_table s)));
    [|assumption].
  intros s2 state s3 Hs2 H.
  apply state_body_Ok in H as (recs & tag & Er & _ & ->).
  cbn [seq_table]. apply Forall_app. split; [assumption|].
  constructor; [|constructor].
  exists row. cbn [row_run simultaneous_recordings]. split; [assumption|].
  intros x Hx.
  destruct (comprehension_In _ _ _ x Er Hx) as (i & Hi & Ei).
  apply np_where_bounds in Hi. unfold size in Hi.
  rewrite length_map, Ec in Hi.
  pose proof (getitem_Ok_nonneg _ i x (proj1 Hi) Ei) as [Hlt _].
  unfold size in Hlt. rewrite length_range in Hlt.
  rewrite getitem_range in Ei by lia. injection Ei as <-. lia.
Qed.

(** Whatever the session, a sequential recording never references the last
    sweep of the run it was added for. *)
Lemma last_sweep_of_run_not_referenced (sweepStates : list Z)
      (runInds : list (Z * Z)) (nSweeps nRuns : Z) (v : seq_vars)
      (r : seq_row) (first last : Z) :
  sequential_recordings sweepStates runInds (range 0 nSweeps) nRuns = Ok v ->
  In r (seq_table v) ->
  getitem runInds (row_run r) = Ok (first, last) ->
  0 <= first ->
  ~ In last (simultaneous_recordings r).
Proof.
  intros H Hin Hrow Hfirst Hlast.
  apply sequential_recordings_positions in H.
  rewrite Forall_forall in H.
  destruct (H r Hin) as (row & Erow & Hpos).
  rewrite Hrow in Erow. injection Erow as <-.
  specialize (Hpos last Hlast). cbn [fst snd] in Hpos. lia.
Qed.

(** ** The repetition loop *)

Lemma comprehension_app {X Y : Type} (f : X -> result Y) (xs ys : list X) :
  comprehension f (xs ++ ys)
  = (a <- comprehension f xs ;; b <- comprehension f ys ;; Ok (a ++ b)).
Proof.
  induction xs as [|x xs IH]; cbn.
  - destruct (comprehension f ys); reflexivity.
  - destruct (f x); cbn; [|reflexivity]. rewrite IH.
    destruct (comprehension f xs); cbn; [|reflexivity].
    destruct (comprehension f ys); reflexivity.
Qed.

Lemma repetitions_small (nRuns : Z) :
  nRuns <= 5 ->
  repetitions nRuns = Ok (firstn (Z.to_nat nRuns) literal_repetitions).
Proof.
  intros H. destruct (Z.le_gt_cases nRuns 0) as [H0|H0].
  - unfold repetitions. rewrite range_nil by lia.
    replace (Z.to_nat nRuns) with 0%nat by lia. reflexivity.
  - assert (nRuns = 1 \/ nRuns = 2 \/ nRuns = 3 \/ nRuns = 4 \/ nRuns = 5)
      as [->|[->|[->|[->| ->]]]] by lia; reflexivity.
Qed.

Lemma repetitions_large (nRuns : Z) :
  5 < nRuns -> repetitions nRuns = Raise IndexError.
Proof.
  intros H. unfold repetitions.
  rewrite <- (range_app 0 5 nRuns) by lia. rewrite comprehension_app.
  change (comprehension _ (range 0 5)) with (Ok literal_repetitions).
  cbn [bind]. rewrite (range_cons 5 nRuns) by lia. reflexivity.
Qed.

Lemma convert_Ok (d : recording) (c : conversion) :
  convert d = Ok c ->
  exists r v,
    getRuns (sweepLabels d) (sweepDataPoints d) (sweepStartTimes d) = Ok r /\
    runs c = acc_runs r /\
    runUnits c = acc_units r /\
    runInds c = runBounds (acc_inds r) (size (sweepIDs d)) /\
    comprehension (sweep_series d (runs c) (runUnits c) (runInds c))
                  (range 0 (size (sweepIDs d))) = Ok (series_pairs c) /\
    sequential_recordings (sweepStates d) (runInds c)
                          (range 0 (size (sweepIDs d))) (size (runs c)) = Ok v /\
    sequential_table c = seq_table v /\
    repetitions (size (runs c)) = Ok (repetition_table c).
Proof.
  unfold convert. intros H.
  apply bind_Ok in H as (r & Er & H).
  apply bind_Ok in H as (pairs & Ep & H).
  apply bind_Ok in H as (pts & _ & H).
  apply bind_Ok in H as (v & Ev & H).
  apply bind_Ok in H as (reps & Ereps & H).
  injection H as <-. exists r, v. cbn. repeat split; assumption.
Qed.

(** C5, as amended. Whenever the script runs to its end there are at most
    five runs and exactly one repetition per run, in run order, the
    repetition of run i having the id i. The sequential recordings a
    repetition references are not derived from the run bounds or from the
    sequential recordings added for its run: they are read from a literal
    list of five entries, of sizes 2, 1, 1, 1, 2, so the table of
    repetitions depends on the number of runs only. *)
Theorem C5_repetitions_from_literal (d : recording) (c : conversion) :
  convert d = Ok c ->
  (List.length (runs c) <= 5)%nat /\
  List.length (repetition_table c) = List.length (runs c) /\
  map repetition_id (repetition_table c) = range 0 (size (runs c)) /\
  repetition_table c = firstn (List.length (runs c)) literal_repetitions /\
  map (fun rep => List.length (sequential_recordings_of rep))
      (repetition_table c)
  = firstn (List.length (runs c)) [2; 1; 1; 1; 2]%nat.
Proof.
  intros H.
  apply convert_Ok in H as (r & v & _ & _ & _ & _ & _ & _ & _ & Hreps).
  unfold size in Hreps.
  destruct (Z.le_gt_cases (Z.of_nat (List.length (runs c))) 5) as [Hle|Hgt].
  - rewrite repetitions_small in Hreps by assumption.
    rewrite Nat2Z.id in Hreps. injection Hreps as Hreps.
    rewrite <- Hreps. unfold size.
    assert (forall n, (n <= 5)%nat ->
              List.length (firstn n literal_repetitions) = n /\
              map repetition_id (firstn n literal_repetitions)
              = range 0 (Z.of_nat n) /\
              map (fun rep => List.length (sequential_recordings_of rep))
                  (firstn n literal_repetitions)
              = firstn n [2; 1; 1; 1; 2]%nat) as Hn.
    { intros n Hn. do 6 (destruct n as [|n]; [repeat split|]). lia. }
    destruct (Hn (List.length (runs c))) as (H1 & H2 & H3); [lia|].
    repeat split; try assumption. lia.
  - rewrite repetitions_large in Hreps by lia. discriminate.
Qed.

Lemma convert_five_sweeps : convert five_sweeps = Ok five_sweeps_conversion.
Proof. vm_compute. reflexivity. Qed.

Lemma C5_repetitions_from_literal_witness :
  (List.length (runs five_sweeps_conversion) <= 5)%nat /\
  List.length (repetition_table five_sweeps_conversion)
  = List.length (runs five_sweeps_conversion) /\
  map repetition_id (repetition_table five_sweeps_conversion)
  = range 0 (size (runs five_sweeps_conversion)) /\
  repetition_table five_sweeps_conversion
  = firstn (List.length (runs five_sweeps_conversion)) literal_repetitions /\
  map (fun rep => List.length (sequential_recordings_of rep))
      (repetition_table five_sweeps_conversion)
  = firstn (List.length (runs five_sweeps_conversion)) [2; 1; 1; 1; 2]%nat.
Proof.
  apply (C5_repetitions_from_literal five_sweeps five_sweeps_conversion).
  vm_compute. reflexivity.
Defined.

(** C5, as stated, fails: on [five_sweeps] the script adds the sequential
    recording 0 for run 0 and the sequential recording 1 for run 1, while
    the repetition of run 0 references the sequential recordings 1 and 2
    and that of run 1 the sequential recording 3. *)
Lemma C5_counterexample_membership_fixed :
  convert five_sweeps = Ok five_sweeps_conversion /\
  runs five_sweeps_conversion = ["baseline"; "break"] /\
  rows_of_run 0 (sequential_table five_sweeps_conversion) = [0] /\
  rows_of_run 1 (sequential_table five_sweeps_conversion) = [1] /\
  repetition_table five_sweeps_conversion
  = [mk_repetition [1; 2] 0; mk_repetition [3] 1] /\
  [1; 2] <> rows_of_run 0 (sequential_table five_sweeps_conversion).
Proof.
  split; [exact convert_five_sweeps|]. repeat split. discriminate.
Qed.

(** * Further properties *)

(** ** Loops, again *)

(** An invariant of a loop that runs to its end, the body knowing which
    element it is given. *)
Lemma for_each_inv_In {S X : Type} (P : S -> Prop) (body : S -> X -> result S)
      (xs : list X) (s0 s' : S) :
  (forall s x s1, In x xs -> P s -> body s x = Ok s1 -> P s1) ->
  P s0 -> for_each body xs s0 = Ok s' -> P s'.
Proof.
  revert s0. induction xs as [|x xs IH]; intros s0 Hstep H0 H.
  - cbn in H. injection H as <-. assumption.
  - cbn in H. apply bind_Ok in H as (s1 & E1 & H).
    apply (IH s1); [|exact (Hstep s0 x s1 (or_introl eq_refl) H0 E1)|assumption].
    intros s y s2 Hy. apply Hstep. right. assumption.
Qed.

(** A loop stops with the exception of an iteration that raises whatever
    the loop variables are, when the body raises nothing else. *)
Lemma for_each_raises {S X : Type} (body : S -> X -> result S) (e : exn)
      (xs : list X) (x : X) :
  In x xs ->
  (forall s, body s x = Raise e) ->
  (forall s y e', body s y = Raise e' -> e' = e) ->
  forall s, for_each body xs s = Raise e.
Proof.
  intros Hin Hx Honly. induction xs as [|y ys IH]; [destruct Hin|].
  intros s. cbn. destruct Hin as [->|Hin].
  - rewrite Hx. reflexivity.
  - destruct (body s y) as [s1|e'] eqn:E; cbn.
    + apply IH. assumption.
    + rewrite (Honly s y e' E). reflexivity.
Qed.

(** ** getRuns: what it returns *)

Lemma getitem_raises {A : Type} (l : list A) (i : Z) (e : exn) :
  getitem l i = Raise e -> e = IndexError.
Proof.
  unfold getitem.
  destruct ((0 <=? _) && (_ <? _)); [|intros [= <-]; reflexivity].
  destruct (nth_error _ _); [discriminate|intros [= <-]; reflexivity].
Qed.

Lemma first_char_raises (s : string) (e : exn) :
  first_char s = Raise e -> e = IndexError.
Proof. destruct s; cbn; [intros [= <-]; reflexivity|discriminate]. Qed.

(** The body of the loop of getRuns raises IndexError or nothing. *)
Lemma getRuns_body_raises (labels : list string) (dps : list Z)
      (sts : list float) (a : runs_acc) (k : Z) (e : exn) :
  getRuns_body labels dps sts a k = Raise e -> e = IndexError.
Proof.
  unfold getRuns_body.
  destruct (getitem labels k) as [cur|e1] eqn:E1; cbn;
    [|intros [= <-]; exact (getitem_raises _ _ _ E1)].
  destruct (first_char cur) as [c|e2] eqn:E2; cbn;
    [|intros [= <-]; exact (first_char_raises _ _ E2)].
  destruct (getitem labels (k - 1)) as [prev|e3] eqn:E3; cbn;
    [|intros [= <-]; exact (getitem_raises _ _ _ E3)].
  destruct (first_char prev) as [p|e4] eqn:E4; cbn;
    [|intros [= <-]; exact (first_char_raises _ _ E4)].
  destruct (negb (ascii_eqb c p)); [|discriminate].
  destruct (classify c (acc_runs a) (acc_units a)) as [rs us].
  destruct (getitem dps k) as [d|e5] eqn:E5; cbn;
    [|intros [= <-]; exact (getitem_raises _ _ _ E5)].
  destruct (getitem sts k) as [t|e6] eqn:E6; cbn;
    [discriminate|intros [= <-]; exact (getitem_raises _ _ _ E6)].
Qed.

(** A completed iteration of the loop of getRuns either leaves the
    accumulators alone or appends to them. *)
Lemma getRuns_body_Ok (labels : list string) (dps : list Z)
      (sts : list float) (a a' : runs_acc) (k : Z) :
  getRuns_body labels dps sts a k = Ok a' ->
  exists c p,
    leading labels k = Some c /\ leading labels (k - 1) = Some p /\
    if negb (ascii_eqb c p)
    then exists d t,
        getitem dps k = Ok d /\ getitem sts k = Ok t /\
        a' = mk_runs_acc (fst (classify c (acc_runs a) (acc_units a)))
               (acc_inds a ++ [k]) (acc_startTimes a ++ [t])
               (acc_dataPoints a ++ [d])
               (snd (classify c (acc_runs a) (acc_units a)))
    else a' = a.
Proof.
  unfold getRuns_body, leading. intros H.
  apply bind_Ok in H as (cur & E1 & H). apply bind_Ok in H as (c & E2 & H).
  apply bind_Ok in H as (prev & E3 & H). apply bind_Ok in H as (p & E4 & H).
  rewrite E1, E3.
  destruct cur as [|c' rc]; [discriminate|]. injection E2 as ->.
  destruct prev as [|p' rp]; [discriminate|]. injection E4 as ->.
  exists c, p. split; [reflexivity|]. split; [reflexivity|].
  destruct (negb (ascii_eqb c p)); [|congruence].
  destruct (classify c (acc_runs a) (acc_units a)) as [rs us].
  apply bind_Ok in H as (d & E5 & H). apply bind_Ok in H as (t & E6 & H).
  exists d, t. cbn [fst snd]. repeat split; congruence.
Qed.

Lemma getRuns_Ok (labels : list string) (dps : list Z) (sts : list float)
      (r : runs_acc) :
  getRuns labels dps sts = Ok r ->
  exists d0 t0,
    getitem dps 0 = Ok d0 /\ getitem sts 0 = Ok t0 /\
    for_each (getRuns_body labels dps sts) (range 1 (size labels - 1))
             (mk_runs_acc ["baseline"] [0] [t0] [d0] ["amperes"]) = Ok r.
Proof.
  unfold getRuns. intros H.
  apply bind_Ok in H as (d0 & E0 & H). apply bind_Ok in H as (t0 & E1 & H).
  exists d0, t0. repeat split; assumption.
Qed.

(** Picks the pair of [kind_unit] that two literals form. *)
Ltac kind_unit_pair :=
  unfold kind_unit;
  solve [ left; split; reflexivity
        | right; left; split; reflexivity
        | right; right; split; reflexivity ].

Lemma classify_kind_unit (c : ascii) (rs us : list string) :
  Forall2 kind_unit rs us ->
  Forall2 kind_unit (fst (classify c rs us)) (snd (classify c rs us)).
Proof.
  intros H. unfold classify.
  destruct (ascii_eqb c "b").
  { cbn. apply Forall2_app; [assumption|].
    constructor; [kind_unit_pair|constructor]. }
  destruct (ascii_eqb c "0").
  { cbn. apply Forall2_app; [assumption|].
    constructor; [kind_unit_pair|constructor]. }
  destruct (ascii_eqb c "1"); cbn; [|assumption].
  apply Forall2_app; [assumption|].
  constructor; [kind_unit_pair|constructor].
Qed.

(** X1. Whenever getRuns returns, the kinds and the units it returns go in
    pairs, and each pair is (baseline, amperes), (break, amperes) or
    (plasticity, volts): a run is measured in volts exactly when it is a
    plasticity run, whatever the labels were. *)
Theorem getRuns_units_follow_kinds (labels : list string) (dps : list Z)
        (sts : list float) (r : runs_acc) :
  getRuns labels dps sts = Ok r ->
  Forall2 kind_unit (acc_runs r) (acc_units r).
Proof.
  intros H. apply getRuns_Ok in H as (d0 & t0 & _ & _ & H).
  revert H.
  apply (for_each_inv (fun a => Forall2 kind_unit (acc_runs a) (acc_units a))).
  - intros a k a' Ha H.
    apply getRuns_body_Ok in H as (c & p & _ & _ & H).
    destruct (negb (ascii_eqb c p)).
    + destruct H as (d & t & _ & _ & ->). cbn [acc_runs acc_units].
      apply classify_kind_unit. assumption.
    + subst a'. assumption.
  - cbn. constructor; [kind_unit_pair|constructor].
Qed.

Lemma getRuns_units_follow_kinds_witness :
  Forall2 kind_unit ["baseline"; "break"; "plasticity"]
          ["amperes"; "amperes"; "volts"].
Proof.
  apply (getRuns_units_follow_kinds
           ["1"; "1"; "b"; "0"; "0"; "1"] [100; 100; 100; 100; 100; 100]
           [0; 0; 0; 0; 0; 0]%float
           (mk_runs_acc ["baseline"; "break"; "plasticity"] [0; 2; 3]
                        [0; 0; 0]%float [100; 100; 100]
                        ["amperes"; "amperes"; "volts"])).
  reflexivity.
Defined.

(** X2. Whenever getRuns returns, the start time and the point count it
    returns for a run are the entries of sweepStartTimes and of
    sweepDataPoints at the run's start index. *)
Theorem getRuns_values_at_start_indices (labels : list string)
        (dps : list Z) (sts : list float) (r : runs_acc) :
  getRuns labels dps sts = Ok r ->
  Forall2 (fun i t => getitem sts i = Ok t) (acc_inds r) (acc_startTimes r) /\
  Forall2 (fun i d => getitem dps i = Ok d) (acc_inds r) (acc_dataPoints r).
Proof.
  intros H. apply getRuns_Ok in H as (d0 & t0 & Ed & Et & H).
  revert H. apply (for_each_inv (reads_inv dps sts)).
  - intros a k a' [Hs Hd] H.
    apply getRuns_body_Ok in H as (c & p & _ & _ & H).
    destruct (negb (ascii_eqb c p)).
    + destruct H as (d & t & Ed' & Et' & ->). split; cbn.
      * apply Forall2_app; [assumption|]. repeat constructor. assumption.
      * apply Forall2_app; [assumption|]. repeat constructor. assumption.
    + subst a'. split; assumption.
  - split; cbn; repeat constructor; assumption.
Qed.

Lemma getRuns_values_at_start_indices_witness :
  Forall2 (fun i t => getitem [0; 1; 2; 3; 4]%float i = Ok t)
          [0; 1; 3] [0; 1; 3]%float /\
  Forall2 (fun i d => getitem [7; 8; 9; 10; 11] i = Ok d) [0; 1; 3] [7; 8; 10].
Proof.
  apply (getRuns_values_at_start_indices
           ["1"; "x1"; "x2"; "1"; "1"] [7; 8; 9; 10; 11] [0; 1; 2; 3; 4]%float
           (mk_runs_acc ["baseline"; "baseline"] [0; 1; 3] [0; 1; 3]%float
                        [7; 8; 10] ["amperes"; "amperes"])).
  reflexivity.
Defined.

(** An invariant of a loop over [range a b] that runs to its end, indexed
    by the loop variable. *)
Lemma for_each_range_inv_Ok {S : Type} (P : Z -> S -> Prop)
      (body : S -> Z -> result S) (a b : Z) (s0 s' : S) :
  a <= b -> P a s0 ->
  (forall k s s1, a <= k < b -> P k s -> body s k = Ok s1 -> P (k + 1) s1) ->
  for_each body (range a b) s0 = Ok s' -> P b s'.
Proof.
  intros Hab. remember (Z.to_nat (b - a)) as n eqn:En.
  revert a s0 Hab En. induction n as [|n IH]; intros a s0 Hab En H0 Hstep H.
  - assert (a = b) as -> by lia. rewrite range_nil in H by lia.
    cbn in H. injection H as <-. assumption.
  - rewrite range_cons in H by lia. cbn [for_each] in H.
    apply bind_Ok in H as (s1 & E1 & H).
    apply (IH (a + 1) s1); [lia|lia| |intros k s s2 Hk; apply Hstep; lia|assumption].
    apply (Hstep a s0 s1); [lia|assumption|assumption].
Qed.

Lemma filter_range_snoc (f : Z -> bool) (a b : Z) :
  a <= b ->
  filter f (range a (b + 1)) = filter f (range a b) ++ (if f b then [b] else []).
Proof.
  intros H. rewrite range_snoc by assumption. rewrite filter_app. cbn.
  destruct (f b); reflexivity.
Qed.

Lemma getRuns_inds_boundaries (labels : list string) (dps : list Z)
        (sts : list float) (r : runs_acc) :
  getRuns labels dps sts = Ok r ->
  acc_inds r = 0 :: filter (boundary labels) (range 1 (size labels - 1)).
Proof.
  intros H. apply getRuns_Ok in H as (d0 & t0 & _ & _ & H).
  destruct (Z.le_gt_cases 1 (size labels - 1)) as [Hle|Hgt].
  - revert H.
    apply (for_each_range_inv_Ok
             (fun k a => acc_inds a = 0 :: filter (boundary labels) (range 1 k)));
      [assumption|reflexivity|].
    intros k a a' Hk Ha H.
    apply getRuns_body_Ok in H as (c & p & Lc & Lp & H).
    rewrite filter_range_snoc by lia. unfold boundary at 2. rewrite Lc, Lp.
    destruct (negb (ascii_eqb c p)).
    + destruct H as (d & t & _ & _ & ->). cbn [acc_inds]. rewrite Ha.
      reflexivity.
    + subst a'. rewrite Ha, app_nil_r. reflexivity.
  - rewrite range_nil in H by lia. rewrite range_nil by lia.
    cbn in H. injection H as <-. reflexivity.
Qed.

(** X3. Whenever getRuns returns, the run start indices it returns are 0
    followed by, in increasing order, exactly the sweeps k with
    1 <= k <= N-2 whose label differs from the label of sweep k-1 in its
    leading character. *)
Theorem getRuns_start_indices (labels : list string) (dps : list Z)
        (sts : list float) (r : runs_acc) :
  getRuns labels dps sts = Ok r ->
  acc_inds r = 0 :: filter (boundary labels) (range 1 (size labels - 1)).
Proof.
  intros H. exact (getRuns_inds_boundaries labels dps sts r H).
Qed.

Lemma getRuns_start_indices_witness :
  [0; 1; 3]
  = 0 :: filter (boundary ["1"; "x1"; "x2"; "1"; "1"])
                (range 1 (size ["1"; "x1"; "x2"; "1"; "1"] - 1)).
Proof.
  apply (getRuns_start_indices
           ["1"; "x1"; "x2"; "1"; "1"] [7; 8; 9; 10; 11] [0; 1; 2; 3; 4]%float
           (mk_runs_acc ["baseline"; "baseline"] [0; 1; 3] [0; 1; 3]%float
                        [7; 8; 10] ["amperes"; "amperes"])).
  reflexivity.
Defined.

Lemma range_sorted (a b : Z) : StronglySorted Z.lt (range a b).
Proof.
  remember (Z.to_nat (b - a)) as n eqn:En. revert a En.
  induction n as [|n IH]; intros a En.
  - rewrite range_nil by lia. constructor.
  - rewrite range_cons by lia. constructor; [apply IH; lia|].
    apply Forall_forall. intros x Hx. apply In_range in Hx. lia.
Qed.

Lemma filter_sorted (f : Z -> bool) (l : list Z) :
  StronglySorted Z.lt l -> StronglySorted Z.lt (filter f l).
Proof.
  induction 1 as [|x l Hs IH Hx]; cbn; [constructor|].
  destruct (f x); [|assumption]. constructor; [assumption|].
  rewrite Forall_forall in *. intros y Hy. apply filter_In in Hy as [Hy _].
  apply Hx. assumption.
Qed.

Lemma getRuns_inds_sorted_bounded (labels : list string) (dps : list Z)
      (sts : list float) (r : runs_acc) :
  getRuns labels dps sts = Ok r ->
  StronglySorted Z.lt (acc_inds r) /\
  (forall i, In i (acc_inds r) -> i = 0 \/ 1 <= i <= size labels - 2).
Proof.
  intros H. apply getRuns_inds_boundaries in H. rewrite H. split.
  - constructor; [apply filter_sorted, range_sorted|].
    apply Forall_forall. intros x Hx.
    apply filter_In in Hx as [Hx _]. apply In_range in Hx. lia.
  - intros i [<-|Hi]; [left; reflexivity|].
    apply filter_In in Hi as [Hi _]. apply In_range in Hi. right. lia.
Qed.

(** X4. Whenever getRuns returns, the run start indices are strictly
    increasing and every one of them but the first, which is 0, lies
    between 1 and N-2: with two sweeps or more, the last sweep never
    starts a run, whatever its label. *)
Theorem getRuns_last_sweep_starts_no_run (labels : list string)
        (dps : list Z) (sts : list float) (r : runs_acc) :
  getRuns labels dps sts = Ok r ->
  StronglySorted Z.lt (acc_inds r) /\
  (forall i, In i (acc_inds r) -> i = 0 \/ 1 <= i <= size labels - 2) /\
  (2 <= size labels -> ~ In (size labels - 1) (acc_inds r)).
Proof.
  intros H. destruct (getRuns_inds_sorted_bounded _ _ _ _ H) as [Hs Hb].
  split; [exact Hs|]. split; [exact Hb|].
  intros HN Hlast. apply Hb in Hlast. lia.
Qed.

Lemma getRuns_last_sweep_starts_no_run_witness :
  StronglySorted Z.lt [0; 2; 3] /\
  (forall i, In i [0; 2; 3] ->
             i = 0 \/ 1 <= i <= size ["1"; "1"; "b"; "0"; "0"; "1"] - 2) /\
  (2 <= size ["1"; "1"; "b"; "0"; "0"; "1"] ->
   ~ In (size ["1"; "1"; "b"; "0"; "0"; "1"] - 1) [0; 2; 3]).
Proof.
  apply (getRuns_last_sweep_starts_no_run
           ["1"; "1"; "b"; "0"; "0"; "1"] [100; 100; 100; 100; 100; 100]
           [0; 0; 0; 0; 0; 0]%float
           (mk_runs_acc ["baseline"; "break"; "plasticity"] [0; 2; 3]
                        [0; 0; 0]%float [100; 100; 100]
                        ["amperes"; "amperes"; "volts"])).
  reflexivity.
Defined.

(** ** getRuns: edge cases *)

(** X5. getRuns raises IndexError when sweepDataPoints or sweepStartTimes
    is empty, whatever the labels are (an empty session cannot be
    segmented). *)
Theorem getRuns_empty_arrays :
  (forall labels sts, getRuns labels [] sts = Raise IndexError) /\
  (forall labels dps, getRuns labels dps [] = Raise IndexError).
Proof.
  split.
  - reflexivity.
  - intros labels dps. unfold getRuns.
    destruct (getitem dps 0) as [d0|e] eqn:E; cbn; [reflexivity|].
    rewrite (getitem_raises _ _ _ E). reflexivity.
Qed.

(** X6. On a session of at most two sweeps the loop of getRuns has no
    iteration: getRuns reads no label and returns the single run
    baseline, in amperes, starting at sweep 0 with the first point count
    and the first start time, even when the labels are those of a break
    or of a plasticity run, or are empty. *)
Theorem getRuns_two_sweeps_one_baseline_run (labels : list string)
        (d0 : Z) (dps : list Z) (t0 : float) (sts : list float) :
  size labels <= 2 ->
  getRuns labels (d0 :: dps) (t0 :: sts)
  = Ok (mk_runs_acc ["baseline"] [0] [t0] [d0] ["amperes"]).
Proof.
  intros H. unfold getRuns. cbn [getitem bind].
  change (getitem (d0 :: dps) 0) with (Ok d0).
  change (getitem (t0 :: sts) 0) with (Ok t0).
  cbn [bind]. rewrite range_nil by lia. reflexivity.
Qed.

Lemma getRuns_two_sweeps_one_baseline_run_witness :
  getRuns ["0"; "b"] [5; 6] [1; 2]%float
  = Ok (mk_runs_acc ["baseline"] [0] [1%float] [5] ["amperes"]).
Proof.
  apply (getRuns_two_sweeps_one_baseline_run ["0"; "b"] 5 [6] 1%float
           [2%float]).
  cbn. lia.
Defined.

(** X7. With three sweeps or more, an empty label on any sweep but the
    last makes getRuns raise IndexError, whatever the other arrays hold;
    the label of the last sweep is never read. *)
Theorem getRuns_empty_label (labels : list string) (dps : list Z)
        (sts : list float) (j : Z) :
  0 <= j <= size labels - 2 ->
  3 <= size labels ->
  getitem labels j = Ok "" ->
  getRuns labels dps sts = Raise IndexError.
Proof.
  intros Hj HN Ej. unfold getRuns.
  destruct (getitem dps 0) as [d0|e] eqn:E0; cbn;
    [|rewrite (getitem_raises _ _ _ E0); reflexivity].
  destruct (getitem sts 0) as [t0|e] eqn:E1; cbn;
    [|rewrite (getitem_raises _ _ _ E1); reflexivity].
  apply (for_each_raises _ IndexError _ (Z.max 1 j)).
  - apply In_range. lia.
  - intros a. unfold getRuns_body.
    destruct (Z.le_gt_cases 1 j) as [H1|H0].
    + replace (Z.max 1 j) with j by lia. rewrite Ej. reflexivity.
    + replace (Z.max 1 j) with 1 by lia. assert (j = 0) as -> by lia.
      destruct (getitem labels 1) as [cur|e] eqn:Ec; cbn;
        [|rewrite (getitem_raises _ _ _ Ec); reflexivity].
      destruct (first_char cur) as [c|e] eqn:Ef; cbn;
        [|rewrite (first_char_raises _ _ Ef); reflexivity].
      change (1 - 1) with 0. rewrite Ej. reflexivity.
  - intros a k e. apply getRuns_body_raises.
Qed.

Lemma getRuns_empty_label_witness :
  getRuns ["1"; ""; "1"; "1"] [7; 7; 7; 7] [0; 1; 2; 3]%float
  = Raise IndexError.
Proof.
  apply (getRuns_empty_label ["1"; ""; "1"; "1"] [7; 7; 7; 7]
           [0; 1; 2; 3]%float 1).
  - cbn. lia.
  - cbn. lia.
  - reflexivity.
Defined.

(** ** The run of a sweep *)

Lemma np_where_from (o : Z) (mask : list bool) :
  map fst (filter snd (combine (range o (o + size mask)) mask))
  = where_from o mask.
Proof.
  revert o. induction mask as [|b mask IH]; intros o.
  - unfold size. cbn [List.length]. rewrite range_nil by lia. reflexivity.
  - assert (size (b :: mask) = 1 + size mask) as ->
      by (unfold size; cbn [List.length]; lia).
    rewrite range_cons by (unfold size; lia).
    replace (o + (1 + size mask)) with (o + 1 + size mask) by lia.
    cbn [combine filter snd where_from]. rewrite <- IH.
    destruct b; reflexivity.
Qed.

Lemma np_where_where_from (mask : list bool) :
  np_where mask = where_from 0 mask.
Proof. unfold np_where. exact (np_where_from 0 mask). Qed.

Lemma where_from_In (o : Z) (mask : list bool) (x : Z) :
  In x (where_from o mask) <->
  o <= x /\ nth_error mask (Z.to_nat (x - o)) = Some true.
Proof.
  revert o. induction mask as [|b mask IH]; intros o.
  - cbn. split; [tauto|]. intros [_ H]. destruct (Z.to_nat (x - o)); discriminate.
  - assert (In x (where_from (o + 1) mask) <->
            o < x /\ nth_error (b :: mask) (Z.to_nat (x - o)) = Some true)
      as Htail.
    { rewrite IH. split; intros [Hy Hn]; (split; [lia|]).
      - replace (Z.to_nat (x - o)) with (S (Z.to_nat (x - (o + 1)))) by lia.
        exact Hn.
      - replace (Z.to_nat (x - o)) with (S (Z.to_nat (x - (o + 1)))) in Hn
          by lia.
        exact Hn. }
    cbn [where_from]. destruct b.
    + cbn [In]. rewrite Htail. split.
      * intros [<-|[Hy Hn]]; [|split; [lia|assumption]].
        split; [lia|]. replace (Z.to_nat (o - o)) with 0%nat by lia.
        reflexivity.
      * intros [Hy Hn]. destruct (Z.eq_dec o x) as [->|Hne];
          [left; reflexivity|right; split; [lia|assumption]].
    + rewrite Htail. split; intros [Hy Hn].
      * split; [lia|assumption].
      * split; [|assumption].
        destruct (Z.eq_dec o x) as [->|Hne]; [|lia].
        replace (Z.to_nat (x - x)) with 0%nat in Hn by lia. discriminate.
Qed.

Lemma getitem_head {A : Type} (x : A) (l : list A) : getitem (x :: l) 0 = Ok x.
Proof. reflexivity. Qed.

(** The first position at which a mask holds, as the sweep loop reads it. *)
Lemma np_where_first (mask : list bool) :
  (exists k, nth_error mask k = Some true) ->
  exists i, getitem (np_where mask) 0 = Ok i /\ 0 <= i /\
            nth_error mask (Z.to_nat i) = Some true.
Proof.
  intros [k Hk]. rewrite np_where_where_from.
  assert (In (Z.of_nat k) (where_from 0 mask)) as Hin.
  { apply where_from_In. split; [lia|].
    replace (Z.to_nat (Z.of_nat k - 0)) with k by lia. assumption. }
  destruct (where_from 0 mask) as [|i rest] eqn:E; [destruct Hin|].
  exists i. split; [apply getitem_head|].
  assert (In i (where_from 0 mask)) as Hi by (rewrite E; left; reflexivity).
  apply where_from_In in Hi as [Hi Hn].
  replace (i - 0) with i in Hn by lia. split; assumption.
Qed.

Lemma np_where_none (mask : list bool) :
  (forall k, nth_error mask k <> Some true) ->
  getitem (np_where mask) 0 = Raise IndexError.
Proof.
  intros Hnone. rewrite np_where_where_from.
  destruct (where_from 0 mask) as [|i rest] eqn:E; [reflexivity|].
  assert (In i (where_from 0 mask)) as Hi by (rewrite E; left; reflexivity).
  apply where_from_In in Hi as [_ Hn]. destruct (Hnone _ Hn).
Qed.

Lemma sorted_NoDup (l : list Z) : StronglySorted Z.lt l -> NoDup l.
Proof.
  induction 1 as [|x l Hs IH Hx]; constructor; [|assumption].
  intros Hin. rewrite Forall_forall in Hx. specialize (Hx x Hin). lia.
Qed.

Lemma NoDup_app_disjoint {A : Type} (l1 l2 : list A) (a : A) :
  NoDup (l1 ++ l2) -> In a l1 -> ~ In a l2.
Proof.
  induction l1 as [|x l1 IH]; intros Hnd Hin; [destruct Hin|].
  cbn in Hnd. apply NoDup_cons_iff in Hnd as [Hx Hnd].
  destruct Hin as [->|Hin]; [|apply IH; assumption].
  intros H2. apply Hx. apply in_or_app. right. assumption.
Qed.

(** Two rows of a table whose ranges, put end to end, repeat nothing and
    which share a sweep stand at the same position. *)
Lemma flat_map_NoDup_unique {A : Type} (f : A -> list Z) (l : list A)
      (i j : nat) (a b : A) (x : Z) :
  NoDup (flat_map f l) ->
  nth_error l i = Some a -> nth_error l j = Some b ->
  In x (f a) -> In x (f b) -> i = j.
Proof.
  revert i j. induction l as [|y l IH]; intros i j Hnd Hi Hj Ha Hb;
    [destruct i; discriminate|].
  cbn [flat_map] in Hnd.
  assert (forall k c, nth_error l k = Some c -> In x (f c) ->
                      In x (flat_map f l)) as Hrest.
  { intros k c Hk Hc. apply in_flat_map. exists c.
    split; [exact (nth_error_In _ _ Hk)|assumption]. }
  destruct i as [|i], j as [|j]; cbn in Hi, Hj.
  - reflexivity.
  - injection Hi as ->.
    destruct (NoDup_app_disjoint _ _ x Hnd Ha (Hrest j b Hj Hb)).
  - injection Hj as ->.
    destruct (NoDup_app_disjoint _ _ x Hnd Hb (Hrest i a Hi Ha)).
  - f_equal. apply IH; try assumption.
    exact (NoDup_app_remove_l _ _ Hnd).
Qed.

Lemma sorted_ascending (lo : Z) (rest : list Z) (hi : Z) :
  StronglySorted Z.lt (lo :: rest) ->
  (forall i, In i rest -> i < hi) -> lo < hi ->
  ascending lo rest hi.
Proof.
  revert lo. induction rest as [|x rest IH]; intros lo Hs Hb Hlo; [exact Hlo|].
  apply StronglySorted_inv in Hs as [Hs Hx]. cbn. split.
  - rewrite Forall_forall in Hx. apply Hx. left. reflexivity.
  - apply IH; [assumption| |apply Hb; left; reflexivity].
    intros i Hi. apply Hb. right. assumption.
Qed.

(** The run bounds of any session getRuns accepts list the sweeps once
    each, whatever the labels are. *)
Lemma getRuns_bounds_partition (labels : list string) (dps : list Z)
      (sts : list float) (r : runs_acc) :
  getRuns labels dps sts = Ok r -> 1 <= size labels ->
  flat_map sweeps_of (runBounds (acc_inds r) (size labels))
  = range 0 (size labels).
Proof.
  intros H HN.
  pose proof (getRuns_inds_sorted_bounded _ _ _ _ H) as (Hs & Hb).
  rewrite (getRuns_inds_boundaries _ _ _ _ H) in *.
  apply (runBounds_partition 0 _ (Z.max 1 (size labels - 1))); [|lia].
  apply sorted_ascending; [assumption| |lia].
  intros i Hi.
  destruct (Hb i (or_intror Hi)) as [->|Hi']; lia.
Qed.

Lemma run_lookup (labels : list string) (dps : list Z)
        (sts : list float) (r : runs_acc) (sweep : Z) :
  getRuns labels dps sts = Ok r ->
  1 <= size labels ->
  (0 <= sweep < size labels ->
   exists run row,
     getitem (np_where (map (in_run sweep)
                            (runBounds (acc_inds r) (size labels)))) 0
     = Ok run /\
     0 <= run /\
     nth_error (runBounds (acc_inds r) (size labels)) (Z.to_nat run)
     = Some row /\
     in_run sweep row = true /\
     forall k row',
       nth_error (runBounds (acc_inds r) (size labels)) k = Some row' ->
       in_run sweep row' = true -> k = Z.to_nat run) /\
  (~ 0 <= sweep < size labels ->
   getitem (np_where (map (in_run sweep)
                          (runBounds (acc_inds r) (size labels)))) 0
   = Raise IndexError).
Proof.
  intros H HN.
  pose proof (getRuns_bounds_partition _ _ _ _ H HN) as Hpart.
  set (bounds := runBounds (acc_inds r) (size labels)) in *.
  split.
  - intros Hs.
    assert (In sweep (flat_map sweeps_of bounds)) as Hin
      by (rewrite Hpart; apply In_range; assumption).
    apply in_flat_map in Hin as (row0 & Hrow0 & Hin0).
    apply In_nth_error in Hrow0 as [k0 Hk0].
    destruct (np_where_first (map (in_run sweep) bounds)) as (run & E & H0 & Hn).
    { exists k0. rewrite nth_error_map, Hk0. cbn. f_equal.
      apply in_run_sweeps_of. assumption. }
    rewrite nth_error_map in Hn.
    destruct (nth_error bounds (Z.to_nat run)) as [row|] eqn:Erow;
      [|discriminate].
    cbn in Hn. injection Hn as Hn.
    exists run, row. repeat (split; [assumption|]).
    intros k row' Hk Hin'.
    apply (flat_map_NoDup_unique sweeps_of bounds k (Z.to_nat run) row' row sweep);
      try assumption.
    + rewrite Hpart. apply sorted_NoDup, range_sorted.
    + apply in_run_sweeps_of. assumption.
    + apply in_run_sweeps_of. assumption.
  - intros Hout. apply np_where_none. intros k Hk.
    rewrite nth_error_map in Hk.
    destruct (nth_error bounds k) as [row|] eqn:Erow; [|discriminate].
    cbn in Hk. injection Hk as Hk. apply Hout.
    apply In_range. rewrite <- Hpart. apply in_flat_map.
    exists row. split; [exact (nth_error_In _ _ Erow)|].
    apply in_run_sweeps_of. assumption.
Qed.

(** X8. For a session of N >= 1 sweeps that getRuns accepts, whatever its
    labels, the lookup the sweep loop makes in the run bounds gives, for
    every sweep 0 <= s < N, the position of a run whose bounds contain s,
    and no other run's bounds contain s; for any other s it raises
    IndexError. *)
Theorem sweep_has_exactly_one_run (labels : list string) (dps : list Z)
        (sts : list float) (r : runs_acc) (sweep : Z) :
  getRuns labels dps sts = Ok r ->
  1 <= size labels ->
  (0 <= sweep < size labels ->
   exists run row,
     getitem (np_where (map (in_run sweep)
                            (runBounds (acc_inds r) (size labels)))) 0
     = Ok run /\
     0 <= run /\
     nth_error (runBounds (acc_inds r) (size labels)) (Z.to_nat run)
     = Some row /\
     in_run sweep row = true /\
     forall k row',
       nth_error (runBounds (acc_inds r) (size labels)) k = Some row' ->
       in_run sweep row' = true -> k = Z.to_nat run) /\
  (~ 0 <= sweep < size labels ->
   getitem (np_where (map (in_run sweep)
                          (runBounds (acc_inds r) (size labels)))) 0
   = Raise IndexError).
Proof.
  intros H HN. exact (run_lookup labels dps sts r sweep H HN).
Qed.

Lemma sweep_has_exactly_one_run_witness :
  exists run row,
    getitem (np_where (map (in_run 4)
               (runBounds [0; 2; 3] (size ["1"; "1"; "b"; "0"; "0"; "1"])))) 0
    = Ok run /\
    0 <= run /\
    nth_error (runBounds [0; 2; 3] (size ["1"; "1"; "b"; "0"; "0"; "1"]))
              (Z.to_nat run) = Some row /\
    in_run 4 row = true /\
    forall k row',
      nth_error (runBounds [0; 2; 3] (size ["1"; "1"; "b"; "0"; "0"; "1"])) k
      = Some row' ->
      in_run 4 row' = true -> k = Z.to_nat run.
Proof.
  apply (proj1 (sweep_has_exactly_one_run
           ["1"; "1"; "b"; "0"; "0"; "1"] [100; 100; 100; 100; 100; 100]
           [0; 0; 0; 0; 0; 0]%float
           (mk_runs_acc ["baseline"; "break"; "plasticity"] [0; 2; 3]
                        [0; 0; 0]%float [100; 100; 100]
                        ["amperes"; "amperes"; "volts"])
           4 eq_refl ltac:(cbn; lia))).
  cbn. lia.
Defined.

(** ** The series builders: sweepOrder and names *)

Lemma getitem_short {A : Type} (l : list A) (i : Z) :
  size l <= i -> getitem l i = Raise IndexError.
Proof.
  intros H. unfold size in H. getitem_nonneg i.
  destruct (Z.ltb_spec i (Z.of_nat (List.length l))) as [?|_]; [lia|].
  reflexivity.
Qed.

(** X9. Both builders read input['sweepOrder'][0] and [1]. With fewer
    than two entries setCClampSeries raises IndexError. setVClampSeries
    raises IndexError on an empty sweepOrder before it looks at the
    condition; with a single entry it raises UnboundLocalError when no
    text was assigned and IndexError otherwise. *)
Theorem builders_need_two_sweepOrder_entries :
  (forall input : CClamp.inputStruct,
      (List.length (CClamp.sweepOrder input) < 2)%nat ->
      setCClampSeries input = Raise IndexError) /\
  (forall input : VClamp.inputStruct,
      VClamp.sweepOrder input = [] ->
      setVClampSeries input = Raise IndexError) /\
  (forall (input : VClamp.inputStruct) (n : Z),
      VClamp.sweepOrder input = [n] ->
      setVClampSeries input
      = Raise (if texts_assigned (VClamp.condition input)
                                 (VClamp.stimState input)
               then IndexError else UnboundLocalError)).
Proof.
  split; [|split].
  - intros input H. unfold setCClampSeries.
    destruct (CClamp.sweepOrder input) as [|n [|id rest]]; cbn in H;
      [reflexivity|reflexivity|lia].
  - intros input H. unfold setVClampSeries. rewrite H. reflexivity.
  - intros input n H. unfold setVClampSeries. rewrite H.
    rewrite getitem_head. cbn [bind].
    destruct (texts_assigned _ _) eqn:Et.
    + apply describe_assigned in Et as [[de sd] ->]. reflexivity.
    + destruct (describe _ _) as [texts|] eqn:Ed; [|reflexivity].
      assert (texts_assigned (VClamp.condition input) (VClamp.stimState input)
              = true) by (apply describe_assigned; eauto).
      congruence.
Qed.

Lemma builders_need_two_sweepOrder_entries_witness :
  setCClampSeries
    (CClamp.mk 2%float 0%float [1%float] electrode "volts" [4])
  = Raise IndexError.
Proof.
  apply (proj1 builders_need_two_sweepOrder_entries
           (CClamp.mk 2%float 0%float [1%float] electrode "volts" [4])).
  cbn. lia.
Defined.

Lemma uint_of_string_of_uint (d : Decimal.uint) :
  exists d', NilEmpty.uint_of_string (NilZero.string_of_uint d) = Some d' /\
             Z.of_uint d' = Z.of_uint d.
Proof.
  destruct d; try (eexists; split; [apply NilEmpty.usu|reflexivity]).
  exists (Decimal.D0 Decimal.Nil). split; reflexivity.
Qed.

Lemma digits_of_str (n : Z) :
  0 <= n ->
  exists d, NilEmpty.uint_of_string (str n) = Some d /\ Z.of_uint d = n.
Proof.
  intros Hn. unfold str. pose proof (DecimalZ.of_to n) as Hof.
  destruct (Z.to_int n) as [d|d] eqn:E.
  - cbn [NilZero.string_of_int].
    destruct (uint_of_string_of_uint d) as (d' & E' & Hd').
    exists d'. split; [assumption|]. rewrite Hd'. exact Hof.
  - destruct n; cbn in E; try discriminate. lia.
Qed.

(** The number after "PatchClampSeries" is the position the name was made
    from. *)
Lemma position_of_series_name (n : Z) :
  0 <= n -> position_of_name (series_name n) = Some n.
Proof.
  intros Hn. destruct (digits_of_str n Hn) as (d & Ed & Hd).
  unfold position_of_name, series_name, prefix.
  cbn [append strip_prefix Ascii.eqb Bool.eqb].
  destruct (n <? 10); [|destruct (n <? 100)];
    cbn [append NilEmpty.uint_of_string]; rewrite Ed; cbn; f_equal; exact Hd.
Qed.

Lemma series_name_inj (m n : Z) :
  0 <= m -> 0 <= n -> series_name m = series_name n -> m = n.
Proof.
  intros Hm Hn H.
  pose proof (position_of_series_name m Hm) as Em.
  rewrite H, (position_of_series_name n Hn) in Em. congruence.
Qed.

(** X10. Two pairs the sweep loop builds for different sweeps never have
    the same name: neither the two stimulus series nor the two response
    series. *)
Theorem series_names_distinct (d : recording) (runs runUnits : list string)
        (runInds : list (Z * Z)) (s1 s2 : Z)
        (stim1 resp1 stim2 resp2 : NWB.series) :
  0 <= s1 -> 0 <= s2 -> s1 <> s2 ->
  sweep_series d runs runUnits runInds s1 = Ok (stim1, resp1) ->
  sweep_series d runs runUnits runInds s2 = Ok (stim2, resp2) ->
  NWB.name stim1 <> NWB.name stim2 /\ NWB.name resp1 <> NWB.name resp2.
Proof.
  intros H1 H2 Hne E1 E2.
  apply sweep_series_fields in E1
    as (? & ? & ? & ? & ? & ? & ? & ? & _ & _ & _ & _ & _ & _ & E1).
  apply sweep_series_fields in E2
    as (? & ? & ? & ? & ? & ? & ? & ? & _ & _ & _ & _ & _ & _ & E2).
  cbn zeta in E1, E2. destruct E1 as [-> ->]. destruct E2 as [-> ->].
  cbn [NWB.name].
  split; intros Hname; apply series_name_inj in Hname; lia.
Qed.

Lemma series_names_distinct_witness :
  NWB.name stimulus0 <> NWB.name stimulus3 /\
  NWB.name response0 <> NWB.name response3.
Proof.
  apply (series_names_distinct six_sweeps six_sweeps_runs six_sweeps_units
           six_sweeps_bounds 0 3 stimulus0 response0 stimulus3 response3).
  - lia.
  - lia.
  - lia.
  - vm_compute. reflexivity.
  - vm_compute. reflexivity.
Defined.

Lemma series_name_length_below_1000 :
  forallb (fun n => Nat.eqb (String.length (series_name n)) 19)
          (range 0 1000) = true.
Proof. vm_compute. reflexivity. Qed.

(** X11. For each of the first 999 sweeps of a session the name of both
    series has exactly 19 characters, "PatchClampSeries" and three
    digits. *)
Theorem series_name_three_digits (d : recording)
        (runs runUnits : list string) (runInds : list (Z * Z)) (sweep : Z)
        (stim resp : NWB.series) :
  0 <= sweep < 999 ->
  sweep_series d runs runUnits runInds sweep = Ok (stim, resp) ->
  String.length (NWB.name stim) = 19%nat /\
  String.length (NWB.name resp) = 19%nat.
Proof.
  intros Hs H.
  apply sweep_series_fields in H
    as (? & ? & ? & ? & ? & ? & ? & ? & _ & _ & _ & _ & _ & _ & H).
  cbn zeta in H. destruct H as [-> ->]. cbn [NWB.name].
  pose proof series_name_length_below_1000 as Hall.
  rewrite forallb_forall in Hall.
  assert (In (sweep + 1) (range 0 1000)) as Hin by (apply In_range; lia).
  apply Hall, Nat.eqb_eq in Hin. split; exact Hin.
Qed.

Lemma series_name_three_digits_witness :
  String.length (NWB.name stimulus3) = 19%nat /\
  String.length (NWB.name response3) = 19%nat.
Proof.
  apply (series_name_three_digits six_sweeps six_sweeps_runs six_sweeps_units
           six_sweeps_bounds 3 stimulus3 response3).
  - lia.
  - vm_compute. reflexivity.
Defined.

(** ** The sequential recording loop: order and numbering of the rows *)

Lemma insert_unique_In (x y : Z) (l : list Z) :
  In y (insert_unique x l) <-> y = x \/ In y l.
Proof.
  induction l as [|z l IH]; cbn.
  - intuition.
  - destruct (Z.ltb_spec x z); [cbn; intuition|].
    destruct (Z.eqb_spec x z) as [->|Hne]; cbn; [intuition|].
    rewrite IH. intuition.
Qed.

Lemma insert_unique_sorted (x : Z) (l : list Z) :
  StronglySorted Z.lt l -> StronglySorted Z.lt (insert_unique x l).
Proof.
  induction 1 as [|z l Hs IH Hz]; cbn.
  - repeat constructor.
  - rewrite Forall_forall in Hz.
    destruct (Z.ltb_spec x z) as [Hlt|Hge].
    + constructor; [constructor; [assumption|apply Forall_forall; assumption]|].
      apply Forall_forall. intros y [<-|Hy]; [assumption|].
      specialize (Hz y Hy). lia.
    + destruct (Z.eqb_spec x z) as [->|Hne].
      * constructor; [assumption|apply Forall_forall; assumption].
      * constructor; [assumption|]. apply Forall_forall. intros y Hy.
        apply insert_unique_In in Hy as [->|Hy]; [lia|apply Hz; assumption].
Qed.

Lemma np_unique_In (x : Z) (l : list Z) : In x (np_unique l) <-> In x l.
Proof.
  unfold np_unique. induction l as [|y l IH]; cbn; [tauto|].
  rewrite insert_unique_In, IH. intuition.
Qed.

Lemma np_unique_sorted (l : list Z) : StronglySorted Z.lt (np_unique l).
Proof.
  unfold np_unique. induction l as [|y l IH]; cbn; [constructor|].
  apply insert_unique_sorted. assumption.
Qed.

Lemma sorted_snoc {A : Type} (R : A -> A -> Prop) (l : list A) (x : A) :
  StronglySorted R l -> Forall (fun y => R y x) l ->
  StronglySorted R (l ++ [x]).
Proof.
  induction 1 as [|y l Hs IH Hy]; intros Hx; cbn.
  - repeat constructor.
  - apply Forall_cons_iff in Hx as [Hyx Hx]. constructor; [apply IH; assumption|].
    apply Forall_app. split; [assumption|]. repeat constructor. assumption.
Qed.

Lemma sorted_before {A : Type} (R : A -> A -> Prop) (pre post : list A)
      (x : A) :
  StronglySorted R (pre ++ x :: post) -> Forall (fun y => R y x) pre.
Proof.
  induction pre as [|y pre IH]; cbn; intros H; [constructor|].
  apply StronglySorted_inv in H as [Hs Hy]. constructor; [|apply IH; assumption].
  rewrite Forall_forall in Hy. apply Hy. apply in_or_app. right. left.
  reflexivity.
Qed.

(** An invariant of a loop that runs to its end, indexed by the elements
    already visited. *)
Lemma for_each_prefix_inv {S X : Type} (P : list X -> S -> Prop)
      (body : S -> X -> result S) (xs : list X) (s0 s' : S) :
  P [] s0 ->
  (forall pre x post s s1,
      xs = pre ++ x :: post -> P pre s -> body s x = Ok s1 ->
      P (pre ++ [x]) s1) ->
  for_each body xs s0 = Ok s' -> P xs s'.
Proof.
  intros H0 Hstep.
  assert (forall rest pre s,
             xs = pre ++ rest -> P pre s ->
             for_each body rest s = Ok s' -> P xs s') as Hgen.
  { induction rest as [|x rest IH]; intros pre s Exs Hp H.
    - cbn in H. injection H as <-. rewrite app_nil_r in Exs. subst xs.
      assumption.
    - cbn in H. apply bind_Ok in H as (s1 & E1 & H).
      apply (IH (pre ++ [x]) s1); [|apply (Hstep pre x rest s); assumption
                                    |assumption].
      rewrite <- app_assoc. exact Exs. }
  apply (Hgen xs [] s0); [reflexivity|assumption].
Qed.

(** X12. Whenever the sequential recording loop runs to its end, the rows
    it added are numbered 0, 1, 2, ... in the order they were added, and
    seqGroupCount is their number. *)
Theorem sequential_recording_ids (sweepStates : list Z)
        (runInds : list (Z * Z)) (rowIndicesSimRec : list Z) (nRuns : Z)
        (v : seq_vars) :
  sequential_recordings sweepStates runInds rowIndicesSimRec nRuns = Ok v ->
  map row_id (seq_table v) = range 0 (size (seq_table v)) /\
  seqGroupCount v = size (seq_table v).
Proof.
  intros H. enough (ids_inv v) as [H1 H2] by (split; assumption).
  revert H. unfold sequential_recordings.
  apply (for_each_inv ids_inv); [|split; reflexivity].
  intros s iRun s1 Hs H. unfold run_body in H.
  apply bind_Ok in H as (row & _ & H).
  apply bind_Ok in H as (condStates & _ & H).
  revert H. apply (for_each_inv ids_inv); [|assumption].
  intros s2 state s3 [Hc Hi] H.
  apply state_body_Ok in H as (recs & tag & _ & _ & ->).
  unfold ids_inv. cbn [seqGroupCount seq_table].
  assert (size (seq_table s2 ++ [mk_seq_row iRun state recs tag
                                             (seqGroupCount s2)])
          = size (seq_table s2) + 1) as ->
    by (unfold size; rewrite length_app; cbn [List.length]; lia).
  split; [lia|].
  rewrite map_app, Hi, range_snoc by (unfold size; lia).
  cbn [map row_id]. rewrite Hc. reflexivity.
Qed.

Lemma sequential_recording_ids_witness :
  map row_id (sequential_table five_sweeps_conversion)
  = range 0 (size (sequential_table five_sweeps_conversion)) /\
  2 = size (sequential_table five_sweeps_conversion).
Proof.
  apply (sequential_recording_ids [0; 1; 9; 9; 9] [(0, 1); (2, 4)]
           (range 0 5) 2
           (mk_seq_vars 2 (Some "noStim")
                        (sequential_table five_sweeps_conversion))).
  vm_compute. reflexivity.
Defined.

Lemma sequential_recordings_row_order (sweepStates : list Z)
        (runInds : list (Z * Z)) (rowIndicesSimRec : list Z) (nRuns : Z)
        (v : seq_vars) :
  sequential_recordings sweepStates runInds rowIndicesSimRec nRuns = Ok v ->
  StronglySorted row_lt (seq_table v) /\
  Forall (fun r => 0 <= row_run r < nRuns) (seq_table v).
Proof.
  unfold sequential_recordings. intros H.
  destruct (Z.le_gt_cases 0 nRuns) as [Hle|Hgt].
  - revert H.
    apply (for_each_range_inv_Ok
             (fun k s => StronglySorted row_lt (seq_table s) /\
                         Forall (fun r => 0 <= row_run r < k) (seq_table s)));
      [assumption|split; constructor|].
    intros k s s1 Hk [Hs Hr] H. unfold run_body in H.
    apply bind_Ok in H as (row & _ & H).
    apply bind_Ok in H as (condStates & _ & H).
    pose proof (np_unique_sorted condStates) as Hu.
    enough (StronglySorted row_lt (seq_table s1) /\
            Forall (fun r => 0 <= row_run r < k \/
                             (row_run r = k /\
                              In (row_state r) (np_unique condStates)))
                   (seq_table s1)) as [H1 H2].
    { split; [assumption|]. rewrite Forall_forall in *.
      intros r Hin. destruct (H2 r Hin) as [?|[? _]]; lia. }
    revert H.
    apply (for_each_prefix_inv
             (fun pre s =>
                StronglySorted row_lt (seq_table s) /\
                Forall (fun r => 0 <= row_run r < k \/
                                 (row_run r = k /\ In (row_state r) pre))
                       (seq_table s))).
    + split; [assumption|]. rewrite Forall_forall in *.
      intros r Hin. left. apply Hr. assumption.
    + intros pre state post s2 s3 Exs [Hs2 Hr2] H.
      apply state_body_Ok in H as (recs & tag & _ & _ & ->).
      cbn [seq_table]. rewrite Exs in Hu. apply sorted_before in Hu.
      rewrite Forall_forall in Hu, Hr2. split.
      * apply sorted_snoc; [assumption|]. apply Forall_forall.
        intros r Hin. unfold row_lt. cbn [row_run row_state].
        destruct (Hr2 r Hin) as [?|[? Hpre]]; [left; lia|].
        right. split; [assumption|]. apply Hu. assumption.
      * apply Forall_app. split.
        -- apply Forall_forall. intros r Hin.
           destruct (Hr2 r Hin) as [?|[? Hpre]]; [left; assumption|].
           right. split; [assumption|]. apply in_or_app. left. assumption.
        -- constructor; [|constructor]. right. cbn [row_run row_state].
           split; [reflexivity|]. apply in_or_app. right. left. reflexivity.
  - rewrite range_nil in H by lia. cbn in H. injection H as <-.
    split; constructor.
Qed.

(** X13. Whenever the sequential recording loop runs to its end, its rows
    stand run by run, in run order, and inside a run by strictly
    increasing state code (the order of np.unique, not the order in which
    the codes first appear): no two rows of a run have the same state
    code. *)
Theorem sequential_recordings_sorted (sweepStates : list Z)
        (runInds : list (Z * Z)) (rowIndicesSimRec : list Z) (nRuns : Z)
        (v : seq_vars) :
  sequential_recordings sweepStates runInds rowIndicesSimRec nRuns = Ok v ->
  StronglySorted row_lt (seq_table v) /\
  Forall (fun r => 0 <= row_run r < nRuns) (seq_table v).
Proof.
  intros H.
  exact (sequential_recordings_row_order sweepStates runInds rowIndicesSimRec
           nRuns v H).
Qed.

Lemma sequential_recordings_sorted_witness :
  StronglySorted row_lt
    [mk_seq_row 0 0 [0; 2] "light" 0; mk_seq_row 0 1 [1] "current" 1;
     mk_seq_row 0 9 [3] "noStim" 2] /\
  Forall (fun r => 0 <= row_run r < 1)
    [mk_seq_row 0 0 [0; 2] "light" 0; mk_seq_row 0 1 [1] "current" 1;
     mk_seq_row 0 9 [3] "noStim" 2].
Proof.
  apply (sequential_recordings_sorted [0; 1; 0; 9; 1] [(0, 4)] (range 0 5) 1
           (mk_seq_vars 3 (Some "noStim")
              [mk_seq_row 0 0 [0; 2] "light" 0;
               mk_seq_row 0 1 [1] "current" 1;
               mk_seq_row 0 9 [3] "noStim" 2])).
  vm_compute. reflexivity.
Defined.

(** ** The sequential recording loop: what the rows reference *)

Lemma nth_error_range (a b x : Z) :
  0 <= x < b - a -> nth_error (range a b) (Z.to_nat x) = Some (a + x).
Proof.
  intros H. unfold range. rewrite nth_error_map, nth_error_seq.
  destruct (Nat.ltb_spec (Z.to_nat x) (Z.to_nat (b - a))) as [_|?]; [|lia].
  cbn. f_equal. lia.
Qed.

Lemma comprehension_nth {X Y : Type} (f : X -> result Y) (xs : list X)
      (ys : list Y) (k : nat) (x : X) :
  comprehension f xs = Ok ys -> nth_error xs k = Some x ->
  exists y, nth_error ys k = Some y /\ f x = Ok y.
Proof.
  revert ys k. induction xs as [|x0 xs IH]; intros ys k H Hk;
    [destruct k; discriminate|].
  cbn in H. apply bind_Ok in H as (y0 & E0 & H).
  apply bind_Ok in H as (ys0 & E1 & H). injection H as <-.
  destruct k as [|k]; cbn in Hk.
  - injection Hk as <-. exists y0. split; [reflexivity|assumption].
  - exact (IH ys0 k E1 Hk).
Qed.

Lemma comprehension_getitem_range (n : Z) (inds recs : list Z) :
  (forall i, In i inds -> 0 <= i) ->
  comprehension (getitem (range 0 n)) inds = Ok recs -> recs = inds.
Proof.
  revert recs. induction inds as [|i inds IH]; intros recs Hpos H.
  - cbn in H. injection H as <-. reflexivity.
  - cbn in H. apply bind_Ok in H as (y & Ey & H).
    apply bind_Ok in H as (ys & Eys & H). injection H as <-.
    assert (0 <= i) as Hi by (apply Hpos; left; reflexivity).
    pose proof (getitem_Ok_nonneg _ i y Hi Ey) as [Hlt _].
    unfold size in Hlt. rewrite length_range in Hlt.
    rewrite getitem_range in Ey by lia. injection Ey as <-.
    f_equal. apply IH; [|assumption].
    intros j Hj. apply Hpos. right. assumption.
Qed.

Lemma np_where_In (mask : list bool) (x : Z) :
  In x (np_where mask) <->
  0 <= x /\ nth_error mask (Z.to_nat x) = Some true.
Proof.
  rewrite np_where_where_from, where_from_In.
  replace (x - 0) with x by lia. reflexivity.
Qed.

(** The positions of one state code among the sweeps first .. last-1. *)
Lemma state_positions (sweepStates condStates : list Z) (first last : Z)
      (state x : Z) :
  comprehension (getitem sweepStates) (range first last) = Ok condStates ->
  In x (np_where (map (fun c => c =? state) condStates)) <->
  0 <= x < last - first /\ getitem sweepStates (first + x) = Ok state.
Proof.
  intros Hc. pose proof (comprehension_length _ _ _ Hc) as Hlen.
  rewrite length_range in Hlen.
  rewrite np_where_In, nth_error_map. split.
  - intros [Hx Hn].
    destruct (nth_error condStates (Z.to_nat x)) as [c|] eqn:Ec;
      [|discriminate].
    cbn in Hn. injection Hn as Hn. apply Z.eqb_eq in Hn. subst c.
    assert (Z.to_nat x < List.length condStates)%nat as Hb
      by (apply nth_error_Some; congruence).
    assert (0 <= x < last - first) as Hr by lia.
    split; [assumption|].
    destruct (comprehension_nth _ _ _ _ _ Hc (nth_error_range _ _ _ Hr))
      as (y & Ey & Eg).
    rewrite Ec in Ey. injection Ey as <-. assumption.
  - intros [Hr Eg]. split; [lia|].
    destruct (comprehension_nth _ _ _ _ _ Hc (nth_error_range _ _ _ Hr))
      as (y & Ey & Eg').
    rewrite Eg in Eg'. injection Eg' as <-. rewrite Ey. cbn.
    rewrite Z.eqb_refl. reflexivity.
Qed.

(** The row a completed iteration of the inner loop adds, when the rows of
    the simultaneous recordings are numbered 0 .. nSweeps-1. *)
Lemma state_body_row (condStates : list Z) (nSweeps iRun : Z)
      (v v' : seq_vars) (state : Z) :
  state_body condStates (range 0 nSweeps) iRun v state = Ok v' ->
  exists tag,
    seq_table v'
    = seq_table v
      ++ [mk_seq_row iRun state
            (np_where (map (fun c => c =? state) condStates)) tag
            (seqGroupCount v)].
Proof.
  intros H. apply state_body_Ok in H as (recs & tag & Er & _ & ->).
  apply comprehension_getitem_range in Er.
  - subst recs. exists tag. reflexivity.
  - intros i Hi. apply np_where_In in Hi. tauto.
Qed.

Lemma sequential_recordings_references_inv (sweepStates : list Z)
        (runInds : list (Z * Z)) (nSweeps nRuns : Z) (v : seq_vars) :
  sequential_recordings sweepStates runInds (range 0 nSweeps) nRuns = Ok v ->
  Forall (references_by_state sweepStates runInds) (seq_table v).
Proof.
  unfold sequential_recordings.
  apply (for_each_inv
           (fun s => Forall (references_by_state sweepStates runInds)
                            (seq_table s))); [|constructor].
  intros s iRun s1 Hs H. unfold run_body in H.
  apply bind_Ok in H as (row & Erow & H).
  apply bind_Ok in H as (condStates & Ec & H).
  revert H.
  apply (for_each_inv
           (fun s => Forall (references_by_state sweepStates runInds)
                            (seq_table s))); [|assumption].
  intros s2 state s3 Hs2 H.
  apply state_body_row in H as (tag & ->).
  apply Forall_app. split; [assumption|]. constructor; [|constructor].
  exists row. cbn [row_run row_state simultaneous_recordings].
  split; [assumption|]. intros x.
  apply (state_positions sweepStates condStates (fst row) (snd row)).
  assumption.
Qed.

(** X14. Whenever the sequential recording loop runs to its end on
    simultaneous recordings numbered 0 .. nSweeps-1, each row references
    exactly the positions x, counted from 0, with first <= first + x < last
    at which sweepStates[first + x] is the row's state code, where
    (first, last) are the bounds of the row's run: positions inside the
    run, and short of its last sweep. *)
Theorem sequential_recording_references (sweepStates : list Z)
        (runInds : list (Z * Z)) (nSweeps nRuns : Z) (v : seq_vars) :
  sequential_recordings sweepStates runInds (range 0 nSweeps) nRuns = Ok v ->
  Forall (references_by_state sweepStates runInds) (seq_table v).
Proof.
  intros H.
  exact (sequential_recordings_references_inv sweepStates runInds nSweeps
           nRuns v H).
Qed.

Lemma sequential_recording_references_witness :
  Forall (references_by_state [0; 1; 0; 9; 1] [(0, 4)])
    [mk_seq_row 0 0 [0; 2] "light" 0; mk_seq_row 0 1 [1] "current" 1;
     mk_seq_row 0 9 [3] "noStim" 2].
Proof.
  apply (sequential_recording_references [0; 1; 0; 9; 1] [(0, 4)] 5 1
           (mk_seq_vars 3 (Some "noStim")
              [mk_seq_row 0 0 [0; 2] "light" 0;
               mk_seq_row 0 1 [1] "current" 1;
               mk_seq_row 0 9 [3] "noStim" 2])).
  vm_compute. reflexivity.
Defined.

(** X15. Whenever the sequential recording loop runs to its end, every row
    references at least one position, and the bounds of its run satisfy
    first < last: a run of a single sweep (first = last) gets no
    sequential recording at all. *)
Theorem sequential_recording_never_empty (sweepStates : list Z)
        (runInds : list (Z * Z)) (nSweeps nRuns : Z) (v : seq_vars)
        (r : seq_row) :
  sequential_recordings sweepStates runInds (range 0 nSweeps) nRuns = Ok v ->
  In r (seq_table v) ->
  simultaneous_recordings r <> [] /\
  exists row, getitem runInds (row_run r) = Ok row /\ fst row < snd row.
Proof.
  intros H Hin.
  assert (Forall (fun r => simultaneous_recordings r <> []) (seq_table v))
    as Hne.
  { revert H. unfold sequential_recordings.
    apply (for_each_inv
             (fun s => Forall (fun r => simultaneous_recordings r <> [])
                              (seq_table s))); [|constructor].
    intros s iRun s1 Hs H. unfold run_body in H.
    apply bind_Ok in H as (row & Erow & H).
    apply bind_Ok in H as (condStates & Ec & H).
    revert H.
    apply (for_each_inv_In
             (fun s => Forall (fun r => simultaneous_recordings r <> [])
                              (seq_table s))); [|assumption].
    intros s2 state s3 Hstate Hs2 H.
    apply state_body_row in H as (tag & ->).
    apply Forall_app. split; [assumption|]. constructor; [|constructor].
    cbn [simultaneous_recordings].
    apply (proj1 (np_unique_In state condStates)) in Hstate.
    apply In_nth_error in Hstate as [k Hk].
    assert (In (Z.of_nat k)
               (np_where (map (fun c => c =? state) condStates))) as Hw.
    { apply np_where_In. split; [lia|].
      rewrite Nat2Z.id, nth_error_map, Hk. cbn. rewrite Z.eqb_refl.
      reflexivity. }
    intros E. rewrite E in Hw. destruct Hw. }
  rewrite Forall_forall in Hne. specialize (Hne r Hin).
  split; [assumption|].
  apply sequential_recordings_references_inv in H.
  rewrite Forall_forall in H. destruct (H r Hin) as (row & Erow & Href).
  exists row. split; [assumption|].
  destruct (simultaneous_recordings r) as [|x rest]; [congruence|].
  destruct (proj1 (Href x) (or_introl eq_refl)) as [Hx _]. lia.
Qed.

Lemma sequential_recording_never_empty_witness :
  simultaneous_recordings (mk_seq_row 1 9 [0; 1] "noStim" 1) <> [] /\
  exists row,
    getitem [(0, 1); (2, 4)] (row_run (mk_seq_row 1 9 [0; 1] "noStim" 1))
    = Ok row /\ fst row < snd row.
Proof.
  apply (sequential_recording_never_empty [0; 1; 9; 9; 9] [(0, 1); (2, 4)]
           5 2
           (mk_seq_vars 2 (Some "noStim")
                        (sequential_table five_sweeps_conversion))).
  - vm_compute. reflexivity.
  - right. left. reflexivity.
Defined.

Lemma sorted_In_cases {A : Type} (R : A -> A -> Prop) (l : list A) (a b : A) :
  StronglySorted R l -> In a l -> In b l -> a = b \/ R a b \/ R b a.
Proof.
  induction 1 as [|x l Hs IH Hx]; intros Ha Hb; [destruct Ha|].
  rewrite Forall_forall in Hx.
  destruct Ha as [->|Ha], Hb as [->|Hb].
  - left. reflexivity.
  - right. left. apply Hx. assumption.
  - right. right. apply Hx. assumption.
  - apply IH; assumption.
Qed.

Lemma sequential_recordings_cover (sweepStates : list Z)
      (runInds : list (Z * Z)) (nSweeps nRuns : Z) (v : seq_vars) :
  sequential_recordings sweepStates runInds (range 0 nSweeps) nRuns = Ok v ->
  covered runInds nRuns (seq_table v).
Proof.
  unfold sequential_recordings. intros H.
  destruct (Z.le_gt_cases 0 nRuns) as [Hle|Hgt];
    [|intros iRun row p Hi; lia].
  revert H.
  apply (for_each_range_inv_Ok (fun k s => covered runInds k (seq_table s)));
    [assumption|intros iRun row p Hi; lia|].
  intros k s s1 Hk Hcov H. unfold run_body in H.
  apply bind_Ok in H as (row & Erow & H).
  apply bind_Ok in H as (condStates & Ec & H).
  enough ((forall r, In r (seq_table s) -> In r (seq_table s1)) /\
          (forall u, In u (np_unique condStates) ->
             exists r, In r (seq_table s1) /\ row_run r = k /\
                       simultaneous_recordings r
                       = np_where (map (fun c => c =? u) condStates)))
    as [Hold Hnew].
  { intros iRun row' p Hi Erow' Hp.
    destruct (Z.eq_dec iRun k) as [->|Hne].
    - rewrite Erow in Erow'. injection Erow' as <-.
      pose proof (comprehension_length _ _ _ Ec) as Hlen.
      rewrite length_range in Hlen.
      destruct (comprehension_nth _ _ _ _ _ Ec (nth_error_range _ _ _ Hp))
        as (c & Enth & Eg).
      destruct (Hnew c) as (r & Hin & Hrun & Hrecs).
      { apply np_unique_In. exact (nth_error_In _ _ Enth). }
      exists r. repeat (split; [assumption|]). rewrite Hrecs.
      apply (state_positions sweepStates condStates (fst row) (snd row));
        [assumption|]. split; assumption.
    - destruct (Hcov iRun row' p) as (r & Hin & Hr); [lia|assumption|assumption|].
      exists r. split; [apply Hold; assumption|assumption]. }
  revert H.
  apply (for_each_prefix_inv
           (fun pre s' =>
              (forall r, In r (seq_table s) -> In r (seq_table s')) /\
              (forall u, In u pre ->
                 exists r, In r (seq_table s') /\ row_run r = k /\
                           simultaneous_recordings r
                           = np_where (map (fun c => c =? u) condStates)))).
  - split; [tauto|]. intros u [].
  - intros pre state post s2 s3 _ [Hold Hnew] H.
    apply state_body_row in H as (tag & ->). split.
    + intros r Hin. apply in_or_app. left. apply Hold. assumption.
    + intros u Hu. apply in_app_or in Hu as [Hu|[<-|[]]].
      * destruct (Hnew u Hu) as (r & Hin & Hr). exists r.
        split; [apply in_or_app; left; assumption|assumption].
      * eexists. split; [apply in_or_app; right; left; reflexivity|].
        split; reflexivity.
Qed.

(** X16. Whenever the sequential recording loop runs to its end on
    simultaneous recordings numbered 0 .. nSweeps-1, the rows of a run
    share out the positions 0 .. last-first-1: every such position is
    referenced by one row of the run and by no other. The positions are
    counted from 0, one fewer than the run has sweeps, whatever the run's
    first sweep is. *)
Theorem sequential_recordings_share_positions (sweepStates : list Z)
        (runInds : list (Z * Z)) (nSweeps nRuns : Z) (v : seq_vars)
        (iRun : Z) (row : Z * Z) (p : Z) :
  sequential_recordings sweepStates runInds (range 0 nSweeps) nRuns = Ok v ->
  0 <= iRun < nRuns ->
  getitem runInds iRun = Ok row ->
  0 <= p < snd row - fst row ->
  exists r,
    In r (seq_table v) /\ row_run r = iRun /\
    In p (simultaneous_recordings r) /\
    forall r', In r' (seq_table v) -> row_run r' = iRun ->
               In p (simultaneous_recordings r') -> r' = r.
Proof.
  intros H Hi Erow Hp.
  destruct (sequential_recordings_cover _ _ _ _ _ H iRun row p Hi Erow Hp)
    as (r & Hin & Hrun & Hpr).
  exists r. repeat (split; [assumption|]).
  intros r' Hin' Hrun' Hpr'.
  pose proof (sequential_recordings_references_inv _ _ _ _ _ H) as Href.
  rewrite Forall_forall in Href.
  destruct (Href r Hin) as (row1 & E1 & H1).
  destruct (Href r' Hin') as (row2 & E2 & H2).
  rewrite Hrun, Erow in E1. injection E1 as <-.
  rewrite Hrun', Erow in E2. injection E2 as <-.
  apply H1 in Hpr as [_ Es]. apply H2 in Hpr' as [_ Es'].
  rewrite Es in Es'. injection Es' as Es'.
  destruct (sequential_recordings_row_order _ _ _ _ _ H) as [Hsorted _].
  destruct (sorted_In_cases row_lt _ r' r Hsorted Hin' Hin)
    as [?|[Hlt|Hlt]]; [assumption| |]; unfold row_lt in Hlt; lia.
Qed.

Lemma sequential_recordings_share_positions_witness :
  exists r,
    In r [mk_seq_row 0 0 [0; 2] "light" 0; mk_seq_row 0 1 [1] "current" 1;
          mk_seq_row 0 9 [3] "noStim" 2] /\
    row_run r = 0 /\
    In 2 (simultaneous_recordings r) /\
    forall r',
      In r' [mk_seq_row 0 0 [0; 2] "light" 0; mk_seq_row 0 1 [1] "current" 1;
             mk_seq_row 0 9 [3] "noStim" 2] ->
      row_run r' = 0 -> In 2 (simultaneous_recordings r') -> r' = r.
Proof.
  apply (sequential_recordings_share_positions [0; 1; 0; 9; 1] [(0, 4)] 5 1
           (mk_seq_vars 3 (Some "noStim")
              [mk_seq_row 0 0 [0; 2] "light" 0;
               mk_seq_row 0 1 [1] "current" 1;
               mk_seq_row 0 9 [3] "noStim" 2])
           0 (0, 4) 2).
  - vm_compute. reflexivity.
  - lia.
  - reflexivity.
  - cbn. lia.
Defined.

(** ** The script as a whole *)

Lemma comprehension_In_Ok {X Y : Type} (f : X -> result Y) (xs : list X)
      (ys : list Y) (x : X) :
  comprehension f xs = Ok ys -> In x xs -> exists y, f x = Ok y /\ In y ys.
Proof.
  revert ys. induction xs as [|x0 xs IH]; intros ys H Hin; [destruct Hin|].
  cbn in H. apply bind_Ok in H as (y0 & E0 & H).
  apply bind_Ok in H as (ys0 & E1 & H). injection H as <-.
  destruct Hin as [->|Hin].
  - exists y0. split; [assumption|left; reflexivity].
  - destruct (IH ys0 E1 Hin) as (y & Ey & Hy).
    exists y. split; [assumption|right; assumption].
Qed.

Lemma convert_reads_points (d : recording) (c : conversion) :
  convert d = Ok c ->
  exists pts,
    comprehension (getitem (sweepDataPoints d)) (range 0 (size (sweepIDs d)))
    = Ok pts.
Proof.
  unfold convert. intros H.
  apply bind_Ok in H as (r & _ & H).
  apply bind_Ok in H as (pairs & _ & H).
  apply bind_Ok in H as (pts & Epts & H).
  exists pts. assumption.
Qed.

Lemma getitem_Ok_size {A : Type} (l : list A) (i : Z) (x : A) :
  0 <= i -> getitem l i = Ok x -> i < size l.
Proof. intros Hi H. exact (proj1 (getitem_Ok_nonneg l i x Hi H)). Qed.

(** X17. The script checks no length. When it runs to its end it has
    built one pair per entry of sweepIDs, and every per-sweep array
    (start times, columns of values, state codes, point counts) has at
    least as many entries as sweepIDs: with a shorter one the script
    raises instead. *)
Theorem convert_needs_full_arrays (d : recording) (c : conversion) :
  convert d = Ok c ->
  List.length (series_pairs c) = List.length (sweepIDs d) /\
  size (sweepIDs d) <= size (sweepStartTimes d) /\
  size (sweepIDs d) <= size (values d) /\
  size (sweepIDs d) <= size (sweepStates d) /\
  size (sweepIDs d) <= size (sweepDataPoints d).
Proof.
  intros H. pose proof (convert_reads_points d c H) as [pts Epts].
  apply convert_Ok in H as (r & v & _ & _ & _ & _ & Hpairs & _).
  split.
  { apply comprehension_length in Hpairs. rewrite Hpairs, length_range.
    unfold size. lia. }
  destruct (Z.le_gt_cases (size (sweepIDs d)) 0) as [H0|Hpos];
    [unfold size in *; lia|].
  assert (In (size (sweepIDs d) - 1) (range 0 (size (sweepIDs d)))) as Hin
    by (apply In_range; lia).
  destruct (comprehension_In_Ok _ _ _ _ Hpairs Hin) as (pair & Epair & _).
  apply sweep_series_Ok in Epair
    as (run & start & column & cond & state & u & id
        & _ & E2 & E3 & _ & E5 & _ & _ & _).
  destruct (comprehension_In_Ok _ _ _ _ Epts Hin) as (pt & Ept & _).
  apply getitem_Ok_size in E2, E3, E5, Ept; lia.
Qed.

Lemma convert_needs_full_arrays_witness :
  List.length (series_pairs five_sweeps_conversion)
  = List.length (sweepIDs five_sweeps) /\
  size (sweepIDs five_sweeps) <= size (sweepStartTimes five_sweeps) /\
  size (sweepIDs five_sweeps) <= size (values five_sweeps) /\
  size (sweepIDs five_sweeps) <= size (sweepStates five_sweeps) /\
  size (sweepIDs five_sweeps) <= size (sweepDataPoints five_sweeps).
Proof.
  apply (convert_needs_full_arrays five_sweeps five_sweeps_conversion).
  vm_compute. reflexivity.
Defined.

(** X18. When the script runs to its end, every sweep lies in a run the
    lookup finds, and the kind of that run and the sweep's state code are
    a combination the builders accept: the run is a plasticity run, or it
    is a break run, or it is a baseline run and the state code is 0 or 1.
    A session with any other state code in a baseline run (a 9, say) is
    not converted. *)
Theorem convert_needs_described_sweeps (d : recording) (c : conversion)
        (sweep : Z) :
  convert d = Ok c ->
  0 <= sweep < size (sweepIDs d) ->
  exists run cond state,
    getitem (np_where (map (in_run sweep) (runInds c))) 0 = Ok run /\
    getitem (runs c) run = Ok cond /\
    getitem (sweepStates d) sweep = Ok state /\
    (cond = "plasticity" \/ texts_assigned cond state = true).
Proof.
  intros H Hs.
  apply convert_Ok in H as (r & v & _ & _ & _ & _ & Hpairs & _).
  assert (In sweep (range 0 (size (sweepIDs d)))) as Hin
    by (apply In_range; assumption).
  destruct (comprehension_In_Ok _ _ _ _ Hpairs Hin) as ([stim resp] & E & _).
  apply sweep_series_Ok in E
    as (run & start & column & cond & state & u & id
        & E1 & _ & _ & E4 & E5 & _ & _ & E).
  exists run, cond, state. repeat (split; [assumption|]).
  destruct (String.eqb_spec cond "plasticity") as [->|Hne];
    [left; reflexivity|right].
  apply setVClampSeries_Ok in E as (n & id' & de & sd & _ & _ & Ed & _).
  cbn [VClamp.condition VClamp.stimState] in Ed.
  apply describe_assigned. eauto.
Qed.

Lemma convert_needs_described_sweeps_witness :
  exists run cond state,
    getitem (np_where (map (in_run 2) (runInds five_sweeps_conversion))) 0
    = Ok run /\
    getitem (runs five_sweeps_conversion) run = Ok cond /\
    getitem (sweepStates five_sweeps) 2 = Ok state /\
    (cond = "plasticity" \/ texts_assigned cond state = true).
Proof.
  apply (convert_needs_described_sweeps five_sweeps five_sweeps_conversion 2).
  - vm_compute. reflexivity.
  - cbn. lia.
Defined.

(** X19. The repetition loop reads one entry of the five-entry literal
    per run: for up to five runs it adds that many repetitions, and for
    six runs or more it raises IndexError. *)
Theorem repetitions_at_most_five_runs (nRuns : Z) :
  (0 <= nRuns <= 5 ->
   exists reps, repetitions nRuns = Ok reps /\
                List.length reps = Z.to_nat nRuns) /\
  (5 < nRuns -> repetitions nRuns = Raise IndexError).
Proof.
  split.
  - intros H. exists (firstn (Z.to_nat nRuns) literal_repetitions).
    split; [apply repetitions_small; lia|].
    rewrite length_firstn. cbn [literal_repetitions List.length]. lia.
  - apply repetitions_large.
Qed.

Lemma repetitions_at_most_five_runs_witness :
  repetitions 6 = Raise IndexError.
Proof.
  apply (proj2 (repetitions_at_most_five_runs 6)). lia.
Defined.

(** ** The session identifier *)





(** ** The sweep loop up to the constructor calls *)

Lemma comprehension_all_Ok {X Y : Type} (f : X -> result Y) (xs : list X) :
  (forall x, In x xs -> exists y, f x = Ok y) ->
  exists ys, comprehension f xs = Ok ys.
Proof.
  induction xs as [|x xs IH]; intros H; [exists []; reflexivity|].
  destruct (H x (or_introl eq_refl)) as [y Ey].
  destruct IH as [ys Eys]; [intros x' Hx'; apply H; right; assumption|].
  exists (y :: ys). cbn. rewrite Ey. cbn. rewrite Eys. reflexivity.
Qed.





(** ** When the sequential recording loop completes *)

Lemma for_each_total_In {S X : Type} (body : S -> X -> result S)
      (xs : list X) :
  (forall s x, In x xs -> exists s', body s x = Ok s') ->
  forall s, exists s', for_each body xs s = Ok s'.
Proof.
  induction xs as [|x xs IH]; intros H s; [exists s; reflexivity|].
  destruct (H s x (or_introl eq_refl)) as [s1 E1].
  destruct (IH (fun s' y Hy => H s' y (or_intror Hy)) s1) as [s2 E2].
  exists s2. cbn. rewrite E1. exact E2.
Qed.

Lemma comprehension_getitem_In {A : Type} (l : list A) (inds : list Z)
      (ys : list A) (y : A) :
  (forall i, In i inds -> 0 <= i) ->
  comprehension (getitem l) inds = Ok ys -> In y ys -> In y l.
Proof.
  intros Hpos H Hy.
  destruct (comprehension_In _ _ _ y H Hy) as (i & Hi & Ei).
  apply getitem_Ok_nonneg in Ei as [_ Hn]; [|apply Hpos; assumption].
  exact (nth_error_In _ _ Hn).
Qed.

(** The sequential recording loop runs to its end when the bounds of the
    runs lie inside sweepStates and every state code is one of the four
    the tag table knows. *)
Lemma sequential_loop_total (sweepStates : list Z) (runInds : list (Z * Z))
      (nSweeps nRuns : Z) :
  0 <= nRuns <= size runInds ->
  size sweepStates <= nSweeps ->
  Forall (row_within (size sweepStates)) runInds ->
  Forall mapped sweepStates ->
  exists v,
    sequential_recordings sweepStates runInds (range 0 nSweeps) nRuns = Ok v.
Proof.
  intros Hn HN Hrows Hmapped. unfold sequential_recordings.
  destruct (for_each_range_inv (fun _ _ => True)
              (run_body sweepStates runInds (range 0 nSweeps)) 0 nRuns
              (mk_seq_vars 0 None [])) as (v & E & _);
    [lia|exact I| |exists v; exact E].
  intros k s Hk _.
  enough (exists s', run_body sweepStates runInds (range 0 nSweeps) s k
                     = Ok s') as [s' E] by (exists s'; split; [exact E|exact I]).
  unfold run_body.
  destruct (getitem_nth runInds k) as (row & Erow & Hnth); [lia|].
  rewrite Erow. cbn [bind].
  rewrite Forall_forall in Hrows, Hmapped.
  destruct (Hrows row (nth_error_In _ _ Hnth)) as [Hfirst Hlast].
  destruct (comprehension_all_Ok (getitem sweepStates)
              (range (fst row) (snd row))) as [condStates Ec].
  { intros i Hi. apply In_range in Hi.
    destruct (getitem_nth sweepStates i) as (y & Ey & _); [lia|].
    exists y. assumption. }
  rewrite Ec. cbn [bind].
  pose proof (comprehension_length _ _ _ Ec) as Hlen.
  rewrite length_range in Hlen.
  apply for_each_total_In. intros s2 state Hstate.
  apply (proj1 (np_unique_In state condStates)) in Hstate.
  assert (In state sweepStates) as Hin.
  { apply (comprehension_getitem_In sweepStates (range (fst row) (snd row))
             condStates state); [|assumption|assumption].
    intros i Hi. apply In_range in Hi. lia. }
  unfold state_body.
  destruct (comprehension_all_Ok (getitem (range 0 nSweeps))
              (np_where (map (fun c => c =? state) condStates))) as [recs Er].
  { intros i Hi. apply np_where_bounds in Hi. unfold size in Hi.
    rewrite length_map in Hi. exists i. apply getitem_range. unfold size in *.
    lia. }
  rewrite Er. cbn [bind]. rewrite select_stimulusType_map.
  specialize (Hmapped state Hin). unfold mapped in Hmapped.
  destruct (stimulus_map state) as [tag|]; [|congruence].
  cbn. eexists. reflexivity.
Qed.

(** X22. The sequential recording loop runs to its end when there are no
    more runs than rows of bounds, each row has 0 <= first and
    last <= len(sweepStates), there are at least as many simultaneous
    recordings as state codes, and every state code is 0, 1, 2 or 9. *)
Theorem sequential_loop_completes (sweepStates : list Z)
        (runInds : list (Z * Z)) (nSweeps nRuns : Z) :
  0 <= nRuns <= size runInds ->
  size sweepStates <= nSweeps ->
  Forall (row_within (size sweepStates)) runInds ->
  Forall mapped sweepStates ->
  exists v,
    sequential_recordings sweepStates runInds (range 0 nSweeps) nRuns = Ok v.
Proof.
  intros Hn HN Hrows Hmapped.
  exact (sequential_loop_total sweepStates runInds nSweeps nRuns
           Hn HN Hrows Hmapped).
Qed.

Lemma sequential_loop_completes_witness :
  exists v,
    sequential_recordings [0; 1; 9; 9; 9] [(0, 1); (2, 4)] (range 0 5) 2 = Ok v.
Proof.
  apply (sequential_loop_completes [0; 1; 9; 9; 9] [(0, 1); (2, 4)] 5 2).
  - cbn. lia.
  - cbn. lia.
  - repeat constructor; cbn; lia.
  - repeat constructor; discriminate.
Defined.

(** ** getRuns: the kinds of the runs *)

Lemma classify_fst (c : ascii) (rs us : list string) :
  fst (classify c rs us) = rs ++ (if recognised c then [kind_of c] else []).
Proof.
  unfold classify, recognised, kind_of.
  destruct (ascii_eqb c "b"); [reflexivity|].
  destruct (ascii_eqb c "0"); [reflexivity|].
  destruct (ascii_eqb c "1"); cbn; [reflexivity|].
  symmetry. apply app_nil_r.
Qed.

(** X24. Whenever getRuns returns, the first kind is baseline and the
    kinds after it are, run by run, read off the leading character of the
    label of the run's first sweep: break for 'b', plasticity for '0',
    baseline for '1', and no kind at all for any other character. *)
Theorem getRuns_kinds_of_start_labels (labels : list string) (dps : list Z)
        (sts : list float) (r : runs_acc) :
  getRuns labels dps sts = Ok r ->
  acc_runs r = "baseline" :: flat_map (run_kind labels) (tl (acc_inds r)).
Proof.
  intros H. apply getRuns_Ok in H as (d0 & t0 & _ & _ & H).
  enough (acc_inds r <> [] /\
          acc_runs r
          = "baseline" :: flat_map (run_kind labels) (tl (acc_inds r)))
    as [_ E] by exact E.
  revert H.
  apply (for_each_inv
           (fun a => acc_inds a <> [] /\
                     acc_runs a
                     = "baseline"
                         :: flat_map (run_kind labels) (tl (acc_inds a)))).
  - intros a k a' [Hne Ha] H.
    apply getRuns_body_Ok in H as (c & p & Lc & _ & H).
    destruct (negb (ascii_eqb c p)).
    + destruct H as (d & t & _ & _ & ->). cbn [acc_inds acc_runs]. split.
      * destruct (acc_inds a); discriminate.
      * rewrite classify_fst, Ha.
        destruct (acc_inds a) as [|i0 rest]; [congruence|].
        cbn [tl app]. rewrite flat_map_app. cbn [flat_map].
        unfold run_kind at 3. rewrite Lc, app_nil_r. reflexivity.
    + subst a'. split; assumption.
  - split; [discriminate|reflexivity].
Qed.

Lemma getRuns_kinds_of_start_labels_witness :
  ["baseline"; "break"; "plasticity"]
  = "baseline"
      :: flat_map (run_kind ["1"; "1"; "b"; "0"; "0"; "1"]) (tl [0; 2; 3]).
Proof.
  apply (getRuns_kinds_of_start_labels
           ["1"; "1"; "b"; "0"; "0"; "1"] [100; 100; 100; 100; 100; 100]
           [0; 0; 0; 0; 0; 0]%float
           (mk_runs_acc ["baseline"; "break"; "plasticity"] [0; 2; 3]
                        [0; 0; 0]%float [100; 100; 100]
                        ["amperes"; "amperes"; "volts"])).
  reflexivity.
Defined.
